(** * LumiChat action server: response selection and bilingual slot parsing

    A shallow embedding of [lumichat-backend/rasa-bot/actions/actions.py]
    and the properties its specification states about it.

    Text is a Rocq [string]; each character stands for one code point in
    the range 0..255, and the character tables below ([isspace],
    [isdecimal], [isword], [lower_char]) are Python's on that range.
    The literals the handlers send out are kept as written in the
    source, byte for byte. *)

From Stdlib Require Import ZArith Lia Bool List Ascii String.
From Stdlib Require Import Numbers.DecimalString.
From stdpp Require Import base strings gmap.
Import ListNotations.

Local Open Scope string_scope.

#[local] Arguments String.append !s1 s2 : simpl nomatch.

(* ===================================================================== *)
(** ** Python text primitives *)
(* ===================================================================== *)

Module Text.

Definition code (c : ascii) : N := N_of_ascii c.

Definition between (lo hi : N) (c : ascii) : bool :=
  ((lo <=? code c) && (code c <=? hi))%N.

(** [str.isspace] on one character: what [str.strip()] removes and what
    the pattern [\s] accepts. *)
Definition isspace (c : ascii) : bool :=
  between 9 13 c || between 28 32 c || (code c =? 133)%N || (code c =? 160)%N.

(** The pattern [\d]. *)
Definition isdecimal (c : ascii) : bool := between 48 57 c.

Definition isalpha (c : ascii) : bool :=
  between 65 90 c || between 97 122 c || (code c =? 170)%N
  || (code c =? 181)%N || (code c =? 186)%N
  || between 192 214 c || between 216 246 c || between 248 255 c.

Definition isnumeric (c : ascii) : bool :=
  isdecimal c || between 178 179 c || (code c =? 185)%N || between 188 190 c.

(** The pattern [\w], used by the word boundary [\b]. *)
Definition isword (c : ascii) : bool :=
  isalpha c || isnumeric c || (code c =? 95)%N.

Definition lower_char (c : ascii) : ascii :=
  if between 65 90 c || between 192 214 c || between 216 222 c
  then ascii_of_N (code c + 32)
  else c.

(** [str.lower()] *)
Fixpoint lower (s : string) : string :=
  match s with
  | EmptyString => EmptyString
  | String c s' => String (lower_char c) (lower s')
  end.

Fixpoint lstrip (s : string) : string :=
  match s with
  | EmptyString => EmptyString
  | String c s' => if isspace c then lstrip s' else s
  end.

Fixpoint rstrip (s : string) : string :=
  match s with
  | EmptyString => EmptyString
  | String c s' =>
      match rstrip s' with
      | EmptyString => if isspace c then EmptyString else String c EmptyString
      | r => String c r
      end
  end.

(** [str.strip()] *)
Definition strip (s : string) : string := rstrip (lstrip s).

(** [s.startswith(k)] *)
Fixpoint startswith (k s : string) : bool :=
  match k, s with
  | EmptyString, _ => true
  | String a k', String b s' => Ascii.eqb a b && startswith k' s'
  | String _ _, EmptyString => false
  end.

(** [k in t] on strings *)
Fixpoint contains (k t : string) : bool :=
  match t with
  | EmptyString => startswith k EmptyString
  | String _ t' => startswith k t || contains k t'
  end.

Fixpoint interleave (new s : string) : string :=
  new +:+ match s with
          | EmptyString => EmptyString
          | String c s' => String c (interleave new s')
          end.

(** Left-to-right, non-overlapping replacement: after a hit at the head
    the remaining characters of the hit are skipped. *)
Fixpoint replace_from (old new : string) (skip : nat) (s : string) : string :=
  match s with
  | EmptyString => EmptyString
  | String c s' =>
      match skip with
      | S n => replace_from old new n s'
      | O =>
          if startswith old s
          then new +:+ replace_from old new (String.length old - 1) s'
          else String c (replace_from old new 0 s')
      end
  end.

(** [s.replace(old, new)] *)
Definition replace (old new s : string) : string :=
  match old with
  | EmptyString => interleave new s
  | _ => replace_from old new 0 s
  end.

(** [s.split(sep, 1)] for a one-character separator: one or two pieces. *)
Fixpoint split1 (sep : ascii) (s : string) : list string :=
  match s with
  | EmptyString => [EmptyString]
  | String c s' =>
      if Ascii.eqb c sep then [EmptyString; s']
      else match split1 sep s' with
           | [a] => [String c a]
           | a :: rest => String c a :: rest
           | [] => []
           end
  end.

(** A string that is all blanks. *)
Fixpoint blank (s : string) : bool :=
  match s with
  | EmptyString => true
  | String c s' => isspace c && blank s'
  end.

(** A non-empty string that begins with a non-blank. *)
Definition starts_solid (s : string) : bool :=
  match s with
  | EmptyString => false
  | String c _ => negb (isspace c)
  end.

(** A non-empty string that ends with a non-blank. *)
Fixpoint ends_solid (s : string) : bool :=
  match s with
  | EmptyString => false
  | String c EmptyString => negb (isspace c)
  | String _ s' => ends_solid s'
  end.

Definition digit_value (c : ascii) : nat := N.to_nat (code c - 48).

Fixpoint digits_value (acc : nat) (s : string) : option nat :=
  match s with
  | EmptyString => Some acc
  | String c s' =>
      if isdecimal c then digits_value (10 * acc + digit_value c) s' else None
  end.

(** [f"{n:02d}"] for a non-negative [n] *)
Definition fmt02d (n : nat) : string :=
  let s := NilEmpty.string_of_uint (Nat.to_uint n) in
  if (String.length s <? 2)%nat then "0" +:+ s else s.

(** [f"{n:04d}"] for a non-negative [n] *)
Definition fmt04d (n : nat) : string :=
  let s := NilEmpty.string_of_uint (Nat.to_uint n) in
  string_of_list_ascii (repeat "0"%char (4 - String.length s)) +:+ s.

End Text.


(* ===================================================================== *)
(** ** The fragment of Python's [re] the actions use *)
(* ===================================================================== *)

Module Re.

(** Patterns.  Repetition is only ever applied to a character class in
    the source, so [Repeat] takes the class itself. *)
Inductive regex : Type :=
| Empty
| Str (w : string)
| Cls (p : ascii -> bool)
| Seq (r1 r2 : regex)
| Or (r1 r2 : regex)
| Repeat (lazy : bool) (lo : nat) (hi : option nat) (p : ascii -> bool)
| Capture (n : nat) (r : regex)
| Bol
| Eol
| WordBoundary.

(** [r?] *)
Definition Maybe (r : regex) : regex := Or r Empty.

(** Numbered groups of a match object; [None] is a group that did not
    take part. *)
Definition groups : Type := nat -> option string.

Definition no_groups : groups := fun _ => None.

Definition set_group (n : nat) (w : string) (g : groups) : groups :=
  fun i => if Nat.eqb i n then Some w else g i.

(** What remains to be done after a piece of the pattern has matched:
    the character just before the cursor, the unread text, the groups. *)
Definition cont : Type := option ascii -> string -> groups -> option groups.

Definition accept : cont := fun _ _ g => Some g.

Fixpoint strip_prefix (w s : string) : option string :=
  match w, s with
  | EmptyString, _ => Some s
  | String a w', String b s' => if Ascii.eqb a b then strip_prefix w' s' else None
  | String _ _, EmptyString => None
  end.

Fixpoint last_char (prev : option ascii) (w : string) : option ascii :=
  match w with
  | EmptyString => prev
  | String c w' => last_char (Some c) w'
  end.

Definition head (s : string) : option ascii :=
  match s with
  | EmptyString => None
  | String c _ => Some c
  end.

Definition word_at (c : option ascii) : bool :=
  match c with
  | Some a => Text.isword a
  | None => false
  end.

(** [$] without MULTILINE: the end, or just before a final newline. *)
Definition at_end (s : string) : bool :=
  match s with
  | EmptyString => true
  | String c EmptyString => Ascii.eqb c "010"%char
  | _ => false
  end.

(** The text read between two cursors, the second further on. *)
Definition consumed (s s' : string) : string :=
  String.substring 0 (String.length s - String.length s') s.

Definition may_take (hi : option nat) : bool :=
  match hi with
  | Some O => false
  | _ => true
  end.

(** [p{lo,hi}], greedy or lazy.  [lo] counts down the characters still
    owed, [hi] the characters still allowed. *)
Fixpoint repeat_cls (lazy : bool) (p : ascii -> bool) (lo : nat) (hi : option nat)
    (prev : option ascii) (s : string)
    (k : option ascii -> string -> option groups) : option groups :=
  let stop := match lo with O => k prev s | S _ => None end in
  let more :=
    match s with
    | String c s' =>
        if p c && may_take hi
        then repeat_cls lazy p (Nat.pred lo) (option_map Nat.pred hi) (Some c) s' k
        else None
    | EmptyString => None
    end in
  if lazy
  then match stop with Some g => Some g | None => more end
  else match more with Some g => Some g | None => stop end.

(** Backtracking matcher in continuation-passing style: alternatives
    are tried left to right and the first overall success wins, as in
    Python. *)
Fixpoint exec (r : regex) (prev : option ascii) (s : string) (g : groups)
    (k : cont) : option groups :=
  match r with
  | Empty => k prev s g
  | Str w =>
      match strip_prefix w s with
      | Some s' => k (last_char prev w) s' g
      | None => None
      end
  | Cls p =>
      match s with
      | String c s' => if p c then k (Some c) s' g else None
      | EmptyString => None
      end
  | Seq r1 r2 => exec r1 prev s g (fun prev' s' g' => exec r2 prev' s' g' k)
  | Or r1 r2 =>
      match exec r1 prev s g k with
      | Some g' => Some g'
      | None => exec r2 prev s g k
      end
  | Repeat lazy lo hi p =>
      repeat_cls lazy p lo hi prev s (fun prev' s' => k prev' s' g)
  | Capture n r =>
      exec r prev s g (fun prev' s' g' => k prev' s' (set_group n (consumed s s') g'))
  | Bol => match prev with None => k prev s g | Some _ => None end
  | Eol => if at_end s then k prev s g else None
  | WordBoundary =>
      if xorb (word_at prev) (word_at (head s)) then k prev s g else None
  end.

(** [re.match(r, s)] *)
Definition match_ (r : regex) (s : string) : option groups :=
  exec r None s no_groups accept.

Fixpoint search_from (r : regex) (prev : option ascii) (s : string) : option groups :=
  match exec r prev s no_groups accept with
  | Some g => Some g
  | None =>
      match s with
      | EmptyString => None
      | String c s' => search_from r (Some c) s'
      end
  end.

(** [re.search(r, s)] *)
Definition search (r : regex) (s : string) : option groups :=
  search_from r None s.

(** What a pattern can read, and the groups it leaves: the matcher's
    results stay inside this relation.  The zero-width tests are left
    unconstrained here. *)
Fixpoint all_in (p : ascii -> bool) (w : string) : bool :=
  match w with
  | EmptyString => true
  | String c w' => p c && all_in p w'
  end.

Definition within (hi : option nat) (n : nat) : Prop :=
  match hi with
  | Some h => n <= h
  | None => True
  end.

Fixpoint reads (r : regex) (g : groups) (w : string) (g' : groups) : Prop :=
  match r with
  | Empty | Bol | Eol | WordBoundary => w = EmptyString /\ g' = g
  | Str u => w = u /\ g' = g
  | Cls p => exists c, w = String c EmptyString /\ p c = true /\ g' = g
  | Seq r1 r2 =>
      exists w1 w2 g1, w = w1 +:+ w2 /\ reads r1 g w1 g1 /\ reads r2 g1 w2 g'
  | Or r1 r2 => reads r1 g w g' \/ reads r2 g w g'
  | Repeat _ lo hi p =>
      all_in p w = true /\ lo <= String.length w /\ within hi (String.length w)
      /\ g' = g
  | Capture n r => exists g1, reads r g w g1 /\ g' = set_group n w g1
  end.

Definition is_char (a : ascii) : ascii -> bool := Ascii.eqb a.

Definition one_of (cs : string) (c : ascii) : bool :=
  existsb (Ascii.eqb c) (list_ascii_of_string cs).

Definition lower_az (c : ascii) : bool := Text.between 97 122 c.

End Re.

(* ===================================================================== *)
(** ** The wall clock ([datetime]) *)
(* ===================================================================== *)

Module Datetime.

(** A [datetime] value: the day as a proleptic Gregorian ordinal (day 1
    is 0001-01-01, as [date.toordinal()]) and the time of day.  The
    ordinal is not bounded here; Python's calendar ends with the year
    9999. *)
Record datetime : Type := { ordinal : Z; hour : nat; minute : nat }.

(** [dt + timedelta(days=n)] *)
Definition plus_days (dt : datetime) (n : Z) : datetime :=
  {| ordinal := (ordinal dt + n)%Z; hour := hour dt; minute := minute dt |}.

(** [dt.date()] *)
Definition date (dt : datetime) : Z := ordinal dt.

(** Year, month and day of an ordinal. *)
Definition civil (ord : Z) : Z * Z * Z :=
  (let z := ord + 305 in
   let era := z / 146097 in
   let doe := z - era * 146097 in
   let yoe := (doe - doe / 1460 + doe / 36524 - doe / 146096) / 365 in
   let doy := doe - (365 * yoe + yoe / 4 - yoe / 100) in
   let mp := (5 * doy + 2) / 153 in
   let d := doy - (153 * mp + 2) / 5 + 1 in
   let m := if mp <? 10 then mp + 3 else mp - 9 in
   let y := yoe + era * 400 + (if m <=? 2 then 1 else 0) in
   (y, m, d))%Z.

(** [d.isoformat()] for a date *)
Definition isoformat (d : Z) : string :=
  let '(y, m, dd) := civil d in
  Text.fmt04d (Z.to_nat y) +:+ "-" +:+ Text.fmt02d (Z.to_nat m)
    +:+ "-" +:+ Text.fmt02d (Z.to_nat dd).

(** [dt.strftime("%H:%M")] *)
Definition strftime_HM (dt : datetime) : string :=
  Text.fmt02d (hour dt) +:+ ":" +:+ Text.fmt02d (minute dt).

Definition valid_time (dt : datetime) : Prop := hour dt < 24 /\ minute dt < 60.

End Datetime.

(* ===================================================================== *)
(** ** Exceptions *)
(* ===================================================================== *)

Inductive exn : Type := ValueError | TypeError | AttributeError.

Inductive result (A : Type) : Type :=
| Ok (a : A)
| Raise (e : exn).

Arguments Ok {A} a.
Arguments Raise {A} e.

#[global] Instance result_ret : MRet result := fun A a => Ok a.

#[global] Instance result_bind : MBind result := fun A B f m =>
  match m with
  | Ok a => f a
  | Raise e => Raise e
  end.

(** [int(s)] on a string.  Given a value on the non-empty strings of
    decimal digits, the only ones a [\d] group can hold; every other
    argument is counted as a [ValueError]. *)
Definition int (s : string) : result nat :=
  match s with
  | EmptyString => Raise ValueError
  | _ => match Text.digits_value 0 s with
         | Some n => Ok n
         | None => Raise ValueError
         end
  end.

(** [int(m.group(n))]: a group that did not take part is [None]. *)
Definition int_group (o : option string) : result nat :=
  match o with
  | Some s => int s
  | None => Raise TypeError
  end.

(** [int(m.group(n) or 0)] *)
Definition int_group_or_0 (o : option string) : result nat :=
  match o with
  | None | Some EmptyString => Ok 0
  | Some s => int s
  end.

(* ===================================================================== *)
(** ** The SDK: dispatcher, tracker, domain, events *)
(* ===================================================================== *)

(** An outbound message: a template to render or a literal text. *)
Inductive Message : Type :=
| response (key : string)
| text (body : string).

Record CollectingDispatcher : Type := { messages : list Message }.

Definition utter_message (m : Message) (d : CollectingDispatcher) : CollectingDispatcher :=
  {| messages := messages d ++ [m] |}.

Inductive EventType : Type :=
| SlotSet (key value : string).

Record Intent : Type := { intent_name : option string }.

Record UserMessage : Type := {
  msg_intent : option Intent;
  msg_text : option string
}.

Record Tracker : Type := { latest_message : UserMessage }.

(** One variant of a template. *)
Record Variant : Type := { variant_text : option string }.

(** The ["responses"] entry of the domain: no such key, a null value,
    or the template store. *)
Inductive ResponsesEntry : Type :=
| Missing
| Null
| Templates (store : gmap string (list Variant)).

Record Domain : Type := { responses : ResponsesEntry }.

(** [domain.get("responses") or {}] *)
Definition responses_or_empty (domain : Domain) : gmap string (list Variant) :=
  match responses domain with
  | Templates store => store
  | Missing | Null => ∅
  end.

(** [key in store] *)
Definition has_key (key : string) (store : gmap string (list Variant)) : bool :=
  match store !! key with
  | Some _ => true
  | None => false
  end.

(** [(tracker.latest_message.get("intent") or {}).get("name", "") or ""] *)
Definition latest_intent_name (tracker : Tracker) : string :=
  match msg_intent (latest_message tracker) with
  | Some i => default "" (intent_name i)
  | None => ""
  end.

(* ===================================================================== *)
(** ** Section A: numbered response selector and crisis safety *)
(* ===================================================================== *)

Definition CRISIS_KEYWORDS : list string :=
  [ "suicide"; "kill myself"; "end my life"; "self harm"; "self-harm";
    "i want to die"; "i want to end it"; "hurt myself" ].

Definition crisis_text : string :=
  "I'm concerned for your safety. If you're in immediate danger, "
  +:+ "please call local emergency services now.".

Definition generic_text : string :=
  "I'm here with you. Tell me a bit more about what you're feeling.".

Module ActionSelectNumberedResponse.

Definition name : string := "action_select_numbered_response".

Definition _latest_intent_name (tracker : Tracker) : string :=
  latest_intent_name tracker.

Definition _has_crisis_terms (txt : option string) : bool :=
  let t := Text.lower (default "" txt) in
  existsb (fun k => Text.contains k t) CRISIS_KEYWORDS.

(** [base, suffix = latest_intent.split("/", 1)]: unpacking anything but
    two pieces is a [ValueError]. *)
Definition unpack2 (pieces : list string) : result (string * string) :=
  match pieces with
  | [a; b] => Ok (a, b)
  | _ => Raise ValueError
  end.

Definition run (dispatcher : CollectingDispatcher) (tracker : Tracker)
    (domain : Domain) : result (CollectingDispatcher * list EventType) :=
  let latest_intent := _latest_intent_name tracker in
  let user_text := msg_text (latest_message tracker) in
  if String.eqb latest_intent "safety_critical" || _has_crisis_terms user_text
  then
    let dispatcher :=
      if has_key "utter_crisis" (responses_or_empty domain)
      then utter_message (response "utter_crisis") dispatcher
      else utter_message (text crisis_text) dispatcher in
    Ok (dispatcher, [])
  else
    '(base, key) ←
      (if Text.contains "/" latest_intent
       then '(base, suffix) ← unpack2 (Text.split1 "/" latest_intent);
            Ok (base, "utter_" +:+ base +:+ "/" +:+ suffix)
       else Ok (latest_intent, "utter_" +:+ latest_intent));
    let responses := responses_or_empty domain in
    let dispatcher :=
      if has_key key responses
      then utter_message (response key) dispatcher
      else
        let parent := "utter_" +:+ base in
        if has_key parent responses
        then utter_message (response parent) dispatcher
        else utter_message (text generic_text) dispatcher in
    Ok (dispatcher, []).

End ActionSelectNumberedResponse.

(** The store of the domain defines a template. *)
Definition defines (domain : Domain) (key : string) : Prop :=
  exists store variants,
    responses domain = Templates store /\ store !! key = Some variants.

(** The turn carries a crisis signal: the intent is the safety intent,
    or the lower-cased text has a crisis phrase as a substring. *)
Definition crisis_signal (tracker : Tracker) : Prop :=
  latest_intent_name tracker = "safety_critical"
  \/ exists k pre post,
       In k CRISIS_KEYWORDS
       /\ Text.lower (default "" (msg_text (latest_message tracker)))
          = pre +:+ k +:+ post.

(** Specific template, else parent template, else the generic text. *)
Definition select_reply (domain : Domain) (key parent : string) : Message :=
  if has_key key (responses_or_empty domain) then response key
  else if has_key parent (responses_or_empty domain) then response parent
  else text generic_text.

(** The message the lookup cascade owes for a specific key and its
    parent key, stated on what the store defines. *)
Definition cascade (domain : Domain) (key parent : string) (m : Message) : Prop :=
  (defines domain key /\ m = response key)
  \/ (~ defines domain key /\ defines domain parent /\ m = response parent)
  \/ (~ defines domain key /\ ~ defines domain parent /\ m = text generic_text).

(** Sample turns. *)
Definition turn (intent : string) (txt : string) : Tracker :=
  {| latest_message :=
       {| msg_intent := Some {| intent_name := Some intent |};
          msg_text := Some txt |} |}.

Definition empty_turn : Tracker :=
  {| latest_message := {| msg_intent := None; msg_text := None |} |}.

Definition no_messages : CollectingDispatcher := {| messages := [] |}.

Definition sample_domain : Domain :=
  {| responses :=
       Templates {[ "utter_anxiety" := [ {| variant_text := Some "Breathe." |} ];
                    "utter_crisis" := [ {| variant_text := Some "Call now." |} ] ]} |}.

Definition empty_domain : Domain := {| responses := Templates ∅ |}.

(* ===================================================================== *)
(** ** Section B: Cebuano/English helpers *)
(* ===================================================================== *)

Definition CEB_DATE_MAP : list (string * string) :=
  [ ("ugma", "tomorrow");
    ("karon", "today");
    ("unya", "later");
    ("sunod semana", "next week") ].

Definition EN_MISSPELLINGS : list (string * string) :=
  [ ("tommorow", "tomorrow");
    ("tomorow", "tomorrow");
    ("tmrw", "tomorrow") ].

Definition CEB_TIME_KEYWORDS : list (string * string) :=
  [ ("buntag", "morning");
    ("hapon", "afternoon");
    ("udto", "noon");
    ("gabii", "evening");
    ("karon", "now") ].

(** [d.get(k)] on a dict written as its items in insertion order *)
Fixpoint dict_get (k : string) (d : list (string * string)) : option string :=
  match d with
  | [] => None
  | (k', v) :: d' => if String.eqb k k' then Some v else dict_get k d'
  end.

(** [x in {a, b, ...}] *)
Definition in_set (x : string) (xs : list string) : bool :=
  existsb (String.eqb x) xs.

Definition normalize_date_text (txt : option string) : string :=
  let t := Text.lower (Text.strip (default "" txt)) in
  let t := match dict_get t EN_MISSPELLINGS with
           | Some v => v
           | None => t
           end in
  fold_left (fun t '(k, v) => if Text.contains k t then Text.replace k v t else t)
            CEB_DATE_MAP t.

Definition normalize_time_text (txt : option string) : string :=
  let t := Text.lower (Text.strip (default "" txt)) in
  let t := fold_left (fun t '(k, v) => if Text.contains k t then v else t)
                     CEB_TIME_KEYWORDS t in
  Text.replace " " "" t.

Definition digits (lo hi : nat) : Re.regex :=
  Re.Repeat false lo (Some hi) Text.isdecimal.

Definition spaces (lo : nat) : Re.regex := Re.Repeat false lo None Text.isspace.

Definition cat (rs : list Re.regex) : Re.regex := fold_right Re.Seq Re.Empty rs.

(** [\b(?:\d{1,2}[/-]\d{1,2}(?:[/-]\d{2,4})?|[a-z]{3,}\s+\d{1,2})\b] *)
Definition date_token_re : Re.regex :=
  cat [ Re.WordBoundary;
        Re.Or (cat [ digits 1 2; Re.Cls (Re.one_of "/-"); digits 1 2;
                     Re.Maybe (cat [ Re.Cls (Re.one_of "/-"); digits 2 4 ]) ])
              (cat [ Re.Repeat false 3 None Re.lower_az; spaces 1; digits 1 2 ]);
        Re.WordBoundary ].

(** The optional fuzzy parser ([dateutil]): absent, or a function that
    gives a datetime or fails ([None] stands for an exception or a
    falsy result, which the caller treats alike). *)
Definition Dateparser : Type := option (string -> option Datetime.datetime).

Definition parse_date (dateparser : Dateparser) (now : Datetime.datetime)
    (value : option string) : option string :=
  let s := normalize_date_text value in
  if in_set s ["today"; "now"] then
    Some (Datetime.isoformat (Datetime.date now))
  else if String.eqb s "tomorrow" then
    Some (Datetime.isoformat (Datetime.date (Datetime.plus_days now 1)))
  else if String.eqb s "nextweek" then
    Some (Datetime.isoformat (Datetime.date (Datetime.plus_days now 7)))
  else
    let fuzzy :=
      match dateparser with
      | Some parse =>
          match parse s with
          | Some dt => Some (Datetime.isoformat (Datetime.date dt))
          | None => None
          end
      | None => None
      end in
    match fuzzy with
    | Some iso => Some iso
    | None =>
        match Re.search date_token_re s with
        | Some _ => Some s
        | None => None
        end
    end.

(** [^(\d{1,2})(?::(\d{2}))?(am|pm)?$] *)
Definition clock_re : Re.regex :=
  cat [ Re.Bol;
        Re.Capture 1 (digits 1 2);
        Re.Maybe (cat [ Re.Str ":"; Re.Capture 2 (digits 2 2) ]);
        Re.Maybe (Re.Capture 3 (Re.Or (Re.Str "am") (Re.Str "pm")));
        Re.Eol ].

(** [alas\s*(\d{1,2})\s*(?:sa)?\s*(buntag|hapon|gabii)] *)
Definition alas_re : Re.regex :=
  cat [ Re.Str "alas"; spaces 0;
        Re.Capture 1 (digits 1 2); spaces 0;
        Re.Maybe (Re.Str "sa"); spaces 0;
        Re.Capture 2 (Re.Or (Re.Str "buntag") (Re.Or (Re.Str "hapon") (Re.Str "gabii"))) ].

Definition WORD_MAP (now : Datetime.datetime) : list (string * string) :=
  [ ("morning", "09:00");
    ("noon", "12:00");
    ("afternoon", "15:00");
    ("evening", "18:00");
    ("now", Datetime.strftime_HM now) ].

(** The 12-hour conversion of the numeric clock rule. *)
Definition to_24h (ampm : option string) (h : nat) : nat :=
  match ampm with
  | None | Some EmptyString => h
  | Some ap =>
      let h := if String.eqb ap "pm" && negb (h =? 12)%nat then h + 12 else h in
      if String.eqb ap "am" && (h =? 12)%nat then 0 else h
  end.

(** First rule of [parse_time]: the numeric clock pattern. *)
Definition clock_rule (s : string) : result (option string) :=
  match Re.match_ clock_re s with
  | Some m =>
      h ← int_group (m 1);
      mins ← int_group_or_0 (m 2);
      let h := to_24h (m 3) h in
      if (h <? 24)%nat && (mins <? 60)%nat
      then Ok (Some (Text.fmt02d h +:+ ":" +:+ Text.fmt02d mins))
      else Ok None
  | None => Ok None
  end.

(** Third rule of [parse_time]: [alas N sa <part>] on the raw value. *)
Definition alas_rule (value : option string) : result (option string) :=
  match Re.search alas_re (Text.lower (default "" value)) with
  | Some m2 =>
      h ← int_group (m2 1);
      let part := m2 2 in
      let h :=
        if bool_decide (part = Some "buntag")
        then (if (h =? 12)%nat then 0 else h)
        else if bool_decide (part = Some "hapon") || bool_decide (part = Some "gabii")
             then (if (h <? 12)%nat then h + 12 else h)
             else h in
      Ok (Some (Text.fmt02d h +:+ ":00"))
  | None => Ok None
  end.

Definition parse_time (now : Datetime.datetime) (value : option string)
    : result (option string) :=
  let s := normalize_time_text value in
  clock ← clock_rule s;
  match clock with
  | Some hhmm => Ok (Some hhmm)
  | None =>
      match dict_get s (WORD_MAP now) with
      | Some hhmm => Ok (Some hhmm)
      | None => alas_rule value
      end
  end.

Definition AFFIRMATIVE : list string :=
  [ "yes"; "y"; "yep"; "yeah"; "yup"; "sure"; "ok"; "okay"; "okk"; "okie";
    "go ahead"; "please"; "yes please"; "proceed"; "sige"; "oo"; "oo, sige";
    "oo sige" ].

Definition NEGATIVE : list string :=
  [ "no"; "nope"; "nah"; "not now"; "maybe later"; "dili"; "ayaw" ].

Definition normalize_yes_no (value : option string) : string :=
  let v := Text.lower (Text.strip (default "" value)) in
  if in_set v AFFIRMATIVE then "yes"
  else if in_set v NEGATIVE then "no"
  else v.

(* ===================================================================== *)
(** ** Coping follow-up: mood canonicalizer and issue analysis *)
(* ===================================================================== *)

Definition MOOD_TO_SUPPORT_UTTER : list (string * string) :=
  [ ("anxiety", "utter_support_anxiety");
    ("depression", "utter_support_depression");
    ("stress_burnout", "utter_support_stress_burnout");
    ("anger", "utter_support_anger");
    ("addiction", "utter_support_addiction");
    ("self_esteem_body", "utter_support_self_esteem_body");
    ("grief_loss", "utter_support_grief_loss");
    ("sleep_insomnia", "utter_support_sleep_insomnia");
    ("loneliness_isolation", "utter_support_loneliness_isolation");
    ("trauma_ptsd", "utter_support_trauma_ptsd");
    ("relationship_romance", "utter_support_relationship_romance");
    ("school_academic", "utter_support_school_academic") ].

Definition backslash : ascii := "092"%char.

Definition word_char_az_ (c : ascii) : bool :=
  Re.lower_az c || Ascii.eqb c "_"%char.

(** The pattern as the source spells it in a raw string,
    [([a-z_]+?)(?:_p\\d+)$]: after [_p] it asks for a backslash and then
    one or more letters [d]. *)
Definition variant_suffix_re : Re.regex :=
  cat [ Re.Capture 1 (Re.Repeat true 1 None word_char_az_);
        Re.Str ("_p" +:+ String backslash EmptyString);
        Re.Repeat false 1 None (Re.is_char "d"%char);
        Re.Eol ].

Definition aliases : list (string * string) :=
  [ ("stress", "stress_burnout"); ("burnout", "stress_burnout");
    ("relationship", "relationship_romance"); ("romance", "relationship_romance");
    ("selfesteem", "self_esteem_body"); ("self_esteem", "self_esteem_body");
    ("bodyimage", "self_esteem_body");
    ("grief", "grief_loss"); ("loneliness", "loneliness_isolation");
    ("trauma", "trauma_ptsd"); ("ptsd", "trauma_ptsd");
    ("sleep", "sleep_insomnia"); ("insomnia", "sleep_insomnia");
    ("school", "school_academic"); ("sad", "depression") ].

(** [for k, v in aliases.items(): if base.startswith(k): return v] and
    the final [return base] *)
Fixpoint first_alias (base : string) (d : list (string * string)) : string :=
  match d with
  | [] => base
  | (k, v) :: d' => if Text.startswith k base then v else first_alias base d'
  end.

(** [m.group(1)] where a string is needed next: a group that did not
    take part is [None], and calling [startswith] on it fails. *)
Definition group_str (o : option string) : result string :=
  match o with
  | Some s => Ok s
  | None => Raise AttributeError
  end.

Definition _canonical_mood_from_intent (intent_name : string) : result string :=
  if Text.startswith "express_" intent_name then
    let key := Text.replace "express_" "" intent_name in
    let key := if String.eqb key "sadness" then "depression" else key in
    let key := if String.eqb key "stress" then "stress_burnout" else key in
    let key := if String.eqb key "sleep" then "sleep_insomnia" else key in
    let key := if String.eqb key "relationship" then "relationship_romance" else key in
    let key := if String.eqb key "low_self_esteem" then "self_esteem_body" else key in
    Ok key
  else
    base ← match Re.match_ variant_suffix_re intent_name with
           | Some m => group_str (m 1)
           | None => Ok intent_name
           end;
    Ok (first_alias base aliases).

Definition listen_text : string :=
  "Thanks for sharing. I’m here to listen and help with next steps.".

Module ActionAnalyzeIssue.

Definition name : string := "action_analyze_issue".

Definition run (dispatcher : CollectingDispatcher) (tracker : Tracker)
    (domain : Domain) : result (CollectingDispatcher * list EventType) :=
  let intent := latest_intent_name tracker in
  mood ← _canonical_mood_from_intent intent;
  let support_utter := dict_get mood MOOD_TO_SUPPORT_UTTER in
  let dispatcher :=
    match support_utter with
    | None | Some EmptyString => utter_message (text listen_text) dispatcher
    | Some key => utter_message (response key) dispatcher
    end in
  dispatcher ←
    match responses domain with
    | Missing => Ok dispatcher
    | Null => Raise TypeError
    | Templates store =>
        Ok (if has_key "utter_offer_coping" store
            then utter_message (response "utter_offer_coping") dispatcher
            else dispatcher)
    end;
  Ok (dispatcher, [SlotSet "mood" mood]).

End ActionAnalyzeIssue.

(* ===================================================================== *)
(** ** Language tag, appointment link, reflective support, coping *)
(* ===================================================================== *)

(** The ["lumichat"] entry of the message metadata: nothing (or a falsy
    value), a value that is not a dict, or a dict with its ["lang"]
    entry, a string when present. *)
Inductive LumichatEntry : Type :=
| NoLumichat
| NotADict
| Lumichat (lang : option string).

Record Metadata : Type := { lumichat : LumichatEntry }.

(** What the later handlers read besides the latest message: its
    metadata and the slots of the conversation. *)
Record Conversation : Type := {
  conv_tracker : Tracker;
  conv_metadata : option Metadata;
  conv_slots : gmap string string
}.

(** [tracker.latest_message.get("metadata") or {}] *)
Definition metadata_or_empty (conv : Conversation) : Metadata :=
  default {| lumichat := NoLumichat |} (conv_metadata conv).

(** [tracker.get_slot(name)] *)
Definition get_slot (conv : Conversation) (name : string) : option string :=
  conv_slots conv !! name.

(** [x or y] on an optional string: [None] and the empty string are
    falsy. *)
Definition or_else (x : option string) (y : string) : string :=
  match x with
  | None | Some EmptyString => y
  | Some s => s
  end.

(** [str(((meta.get("lumichat") or {}).get("lang") or "en")).lower()],
    with ["en"] for any exception: [.get] on a value that is not a dict
    raises. *)
Definition _lang (meta : Metadata) : string :=
  match lumichat meta with
  | NotADict => "en"
  | NoLumichat => Text.lower (or_else None "en")
  | Lumichat lang => Text.lower (or_else lang "en")
  end.

Definition _one (lang en ceb : string) : string :=
  if String.eqb lang "ceb" then ceb else en.

(** [s.lstrip(chars)] *)
Fixpoint lstrip_chars (chars s : string) : string :=
  match s with
  | EmptyString => EmptyString
  | String c s' => if Re.one_of chars c then lstrip_chars chars s' else s
  end.

(** [^https?://] *)
Definition scheme_re : Re.regex :=
  cat [ Re.Bol; Re.Str "http"; Re.Maybe (Re.Str "s"); Re.Str "://" ].

Definition default_appointment_url : string := "http://127.0.0.1:8000/appointment".

(** [_appointment_link()], given the value of the environment variable
    LUMICHAT_APPOINTMENT_URL ([None] when unset). *)
Definition _appointment_link (env : option string) : string :=
  let link := or_else env default_appointment_url in
  match Re.match_ scheme_re link with
  | Some _ => link
  | None => "https://" +:+ lstrip_chars "/" link
  end.

Module ActionReflectiveSupport.

Definition name : string := "action_reflective_support".

(** The English and the Cebuano text of each branch. *)
Definition happiness : string * string :=
  ("I'm glad to hear you’re feeling good. Anything you want to share?",
   "Maayo kaayo nga nalingaw ka. Aduna bay gusto nimo ipa-ambit?").

Definition sadness : string * string :=
  ("I’m sorry you’re feeling down. Do you want to talk about what happened?",
   "Pasayloa ko nga medyo mingaw imong gibati. Gusto ka mosulti unsay nahitabo?").

Definition anxiety : string * string :=
  ("That sounds stressful. Let’s take it one step at a time. What’s worrying you most?",
   "Murag lisod gyud na. Hinay-hinay ta. Unsay pinakadako nimong kabalakan?").

Definition stress : string * string :=
  ("Thanks for sharing. Would a short breathing tip or scheduling a counselor help?",
   "Salamat sa pag-ambit. Gusto ka og mubo nga breathing tip o magpa-iskedyul sa counselor?").

Definition other : string * string :=
  ("I’m here for you. Tell me more so I can help better.",
   "Anaa ra ko para nimo. Sultihi ko og dugang para mas matabangan tika.").

(** The [if]/[elif] chain on the intent.  A missing name compares
    unequal to the four literals, as the empty string does. *)
Definition branch (intent : string) : string * string :=
  if String.eqb intent "express_happiness" then happiness
  else if String.eqb intent "express_sadness" then sadness
  else if String.eqb intent "express_anxiety" then anxiety
  else if String.eqb intent "express_stress" then stress
  else other.

Definition run (dispatcher : CollectingDispatcher) (conv : Conversation)
    (domain : Domain) : result (CollectingDispatcher * list EventType) :=
  let intent := latest_intent_name (conv_tracker conv) in
  let lang := _lang (metadata_or_empty conv) in
  let '(en, ceb) := branch intent in
  let msg := _one lang en ceb in
  Ok (utter_message (text msg) dispatcher, []).

End ActionReflectiveSupport.

Definition MOOD_TO_COPING_UTTER : list (string * string) :=
  [ ("anxiety", "utter_coping_anxiety");
    ("depression", "utter_coping_depression");
    ("stress_burnout", "utter_coping_stress_burnout");
    ("anger", "utter_coping_anger");
    ("addiction", "utter_coping_addiction");
    ("self_esteem_body", "utter_coping_self_esteem_body");
    ("grief_loss", "utter_coping_grief_loss");
    ("sleep_insomnia", "utter_coping_sleep_insomnia");
    ("loneliness_isolation", "utter_coping_loneliness_isolation");
    ("trauma_ptsd", "utter_coping_trauma_ptsd");
    ("relationship_romance", "utter_coping_relationship_romance");
    ("school_academic", "utter_coping_school_academic") ].

Definition coping_text : string :=
  "Here are some general steps: breathe slowly, ground with your senses, and take one small helpful action.".

(** ["responses" in domain] and [domain["responses"]]: [None] when the
    key is absent, else the value, itself [None] when null. *)
Definition responses_value (domain : Domain)
    : option (option (gmap string (list Variant))) :=
  match responses domain with
  | Missing => None
  | Null => Some None
  | Templates store => Some (Some store)
  end.

(** [key in domain["responses"]]: on a null value the test raises. *)
Definition in_responses (key : string) (value : option (gmap string (list Variant)))
    : result bool :=
  match value with
  | Some store => Ok (has_key key store)
  | None => Raise TypeError
  end.

Module ActionGiveCoping.

Definition name : string := "action_give_coping".

Definition run (dispatcher : CollectingDispatcher) (conv : Conversation)
    (domain : Domain) : result (CollectingDispatcher * list EventType) :=
  let intent_name := latest_intent_name (conv_tracker conv) in
  mood ← match get_slot conv "mood" with
         | None | Some EmptyString => _canonical_mood_from_intent intent_name
         | Some m => Ok m
         end;
  let coping_utter := dict_get mood MOOD_TO_COPING_UTTER in
  defined ←
    match coping_utter, responses_value domain with
    | None, _ | Some EmptyString, _ | _, None => Ok false
    | Some key, Some value => in_responses key value
    end;
  let dispatcher :=
    if (defined : bool)
    then utter_message (response (default "" coping_utter)) dispatcher
    else utter_message (text coping_text) dispatcher in
  dispatcher ←
    match responses_value domain with
    | None => Ok dispatcher
    | Some value =>
        referral ← in_responses "utter_offer_referral" value;
        if (referral : bool)
        then Ok (utter_message (response "utter_offer_referral") dispatcher)
        else
          booking ← in_responses "utter_ask_book_counselor" value;
          Ok (if (booking : bool)
              then utter_message (response "utter_ask_book_counselor") dispatcher
              else dispatcher)
    end;
  Ok (dispatcher, []).

End ActionGiveCoping.

(* ===================================================================== *)
(** ** Vocabulary of the statements *)
(* ===================================================================== *)

(** [str(n)] for a non-negative [n] *)
Definition decimal (n : nat) : string := NilEmpty.string_of_uint (Nat.to_uint n).

Definition sample_now : Datetime.datetime :=
  {| Datetime.ordinal := 739924; Datetime.hour := 7; Datetime.minute := 5 |}.

(** A fuzzy parser that finds nothing, as [dateutil] does on a text
    without a date. *)
Definition finds_nothing : Dateparser := Some (fun _ => None).

(** A string is one of the phrases of a set whatever its letter case. *)
Definition is_phrase (u : string) (phrases : list string) : Prop :=
  In (Text.lower u) phrases.

(** A non-empty phrase with no blank at either end. *)
Definition solid (s : string) : bool := Text.starts_solid s && Text.ends_solid s.

Definition digit (n : nat) : ascii := ascii_of_nat (48 + n).

(** The two decimal digits of a number below 100. *)
Definition two_digits (n : nat) : string :=
  String (digit (n / 10)) (String (digit (n mod 10)) EmptyString).

(** A zero-padded five-character ["HH:MM"] of a real time of day. *)
Definition well_formed_hhmm (t : string) : Prop :=
  exists h m, h < 24 /\ m < 60 /\ t = two_digits h +:+ ":" +:+ two_digits m.

Inductive meridiem : Type := AM | PM.

Definition meridiem_text (ap : option meridiem) : string :=
  match ap with
  | Some AM => "am"
  | Some PM => "pm"
  | None => ""
  end.

Definition minute_text (mm : option nat) : string :=
  match mm with
  | Some m => ":" +:+ two_digits m
  | None => ""
  end.

(** A text of the numeric clock pattern: hour, optional minute,
    optional meridiem. *)
Definition clock_text (hs : string) (mm : option nat) (ap : option meridiem) : string :=
  hs +:+ minute_text mm +:+ meridiem_text ap.

(** The 12-hour conversion in the specification's words: "pm" adds 12
    unless the hour is 12, "am" turns hour 12 into 0. *)
Definition hour24 (ap : option meridiem) (h : nat) : nat :=
  match ap with
  | Some PM => if (h =? 12)%nat then h else h + 12
  | Some AM => if (h =? 12)%nat then 0 else h
  | None => h
  end.

Definition clock_answer (h : nat) (mm : option nat) (ap : option meridiem)
    : option string :=
  let h' := hour24 ap h in
  let m := default 0 mm in
  if (h' <? 24)%nat && (m <? 60)%nat
  then Some (two_digits h' +:+ ":" +:+ two_digits m)
  else None.

Definition same_answer (a b : result (option string)) : bool :=
  match a, b with
  | Ok (Some x), Ok (Some y) => String.eqb x y
  | Ok None, Ok None => true
  | _, _ => false
  end.

(** The closed list of canonical mood names. *)
Definition canonical_moods : list string := map fst MOOD_TO_SUPPORT_UTTER.

(** The renamings of the [express_] branch, as intent and mood. *)
Definition express_renamings : list (string * string) :=
  [ ("express_sadness", "depression");
    ("express_stress", "stress_burnout");
    ("express_sleep", "sleep_insomnia");
    ("express_relationship", "relationship_romance");
    ("express_low_self_esteem", "self_esteem_body") ].

(** A sample conversation: intent, language tag, mood slot. *)
Definition conversation (intent : string) (lang mood : option string) : Conversation :=
  {| conv_tracker := turn intent "";
     conv_metadata := Some {| lumichat := Lumichat lang |};
     conv_slots := match mood with
                   | Some m => {[ "mood" := m ]}
                   | None => ∅
                   end |}.

Definition null_domain : Domain := {| responses := Null |}.

Definition booking_domain : Domain :=
  {| responses := Templates {[ "utter_ask_book_counselor" := [] ]} |}.

(** The link begins with a web scheme. *)
Definition has_scheme (link : string) : bool :=
  Text.startswith "http://" link || Text.startswith "https://" link.

(** The five renamings of the [express_] branch, in the order of the
    source. *)
Definition express_rename (key : string) : string :=
  let key := if String.eqb key "sadness" then "depression" else key in
  let key := if String.eqb key "stress" then "stress_burnout" else key in
  let key := if String.eqb key "sleep" then "sleep_insomnia" else key in
  let key := if String.eqb key "relationship" then "relationship_romance" else key in
  let key := if String.eqb key "low_self_esteem" then "self_esteem_body" else key in
  key.

(** No key of the alias table is a prefix of the text. *)
Definition no_alias_prefix (k : string) : bool :=
  forallb (fun '(a, _) => negb (Text.startswith a k)) aliases.

(** A mood the canonicalizer leaves alone: it does not begin with
    "express_", the suffix pattern does not match it, and the alias
    table gives it back. *)
Definition settled (y : string) : Prop :=
  Text.startswith "express_" y = false
  /\ Re.match_ variant_suffix_re y = None
  /\ first_alias y aliases = y.

(** Takes apart what [reads] says of a concrete pattern. *)
Ltac break_reads :=
  repeat match goal with
         | H : exists _, _ |- _ => destruct H
         | H : _ /\ _ |- _ => destruct H
         | H : _ \/ _ |- _ => destruct H
         end; subst.

(* ===================================================================== *)
(** ** Facts about the text primitives *)
(* ===================================================================== *)

Module TextFacts.
Import Text.

Lemma append_assoc (a b c : string) : (a +:+ b) +:+ c = a +:+ (b +:+ c).
Proof. induction a as [|x a IH]; simpl; [reflexivity | now rewrite IH]. Qed.

Lemma append_nil_r (a : string) : a +:+ "" = a.
Proof. induction a as [|x a IH]; simpl; [reflexivity | now rewrite IH]. Qed.

Lemma append_length (a b : string) :
  String.length (a +:+ b) = String.length a + String.length b.
Proof. induction a as [|x a IH]; simpl; [reflexivity | now rewrite IH]. Qed.

Lemma prefix_app (k post : string) : startswith k (k +:+ post) = true.
Proof.
  induction k as [|c k IH]; simpl; [reflexivity|].
  now rewrite Ascii.eqb_refl.
Qed.

Lemma prefix_inv (k t : string) :
  startswith k t = true -> exists post, t = k +:+ post.
Proof.
  revert t. induction k as [|c k IH]; intros t H; simpl in *.
  - now exists t.
  - destruct t as [|d t]; [discriminate|].
    apply andb_true_iff in H as [E H]. apply Ascii.eqb_eq in E as ->.
    destruct (IH _ H) as [post ->]. now exists post.
Qed.

Lemma prefix_trans (k b rest : string) :
  startswith k b = true -> startswith k (b +:+ rest) = true.
Proof.
  intros H. destruct (prefix_inv _ _ H) as [post ->].
  rewrite append_assoc. apply prefix_app.
Qed.

Lemma contains_prefix (k t : string) :
  startswith k t = true -> contains k t = true.
Proof. intros H. destruct t; simpl; [exact H | now rewrite H]. Qed.

(** [contains] decides the substring relation. *)
Lemma contains_intro (k pre post : string) :
  contains k (pre +:+ k +:+ post) = true.
Proof.
  induction pre as [|c pre IH]; simpl.
  - apply contains_prefix, prefix_app.
  - rewrite IH. apply orb_true_r.
Qed.

Lemma contains_at (k pre post t : string) :
  t = pre +:+ k +:+ post -> contains k t = true.
Proof. intros ->. apply contains_intro. Qed.

Lemma contains_inv (k t : string) :
  contains k t = true -> exists pre post, t = pre +:+ k +:+ post.
Proof.
  induction t as [|c t IH]; simpl; intros H.
  - destruct (prefix_inv _ _ H) as [post E]. now exists "", post.
  - apply orb_true_iff in H as [H|H].
    + destruct (prefix_inv _ _ H) as [post E]. now exists "", post.
    + destruct (IH H) as (pre & post & ->). now exists (String c pre), post.
Qed.

Lemma contains_spec (k t : string) :
  contains k t = true <-> exists pre post, t = pre +:+ k +:+ post.
Proof.
  split; [apply contains_inv | intros (pre & post & ->); apply contains_intro].
Qed.

(** Lower-casing neither makes nor removes blanks. *)
Lemma isspace_lower_char (c : ascii) : isspace (lower_char c) = isspace c.
Proof. destruct c as [[] [] [] [] [] [] [] []]; reflexivity. Qed.

Lemma lower_app (a b : string) : lower (a +:+ b) = lower a +:+ lower b.
Proof. induction a as [|x a IH]; simpl; [reflexivity | now rewrite IH]. Qed.

Lemma lower_lstrip (s : string) : lower (lstrip s) = lstrip (lower s).
Proof.
  induction s as [|c s IH]; simpl; [reflexivity|].
  rewrite isspace_lower_char. now destruct (isspace c).
Qed.

Lemma lower_rstrip (s : string) : lower (rstrip s) = rstrip (lower s).
Proof.
  induction s as [|c s IH]; simpl; [reflexivity|].
  rewrite <- IH, isspace_lower_char.
  destruct (rstrip s); simpl; [now destruct (isspace c) | reflexivity].
Qed.

Lemma lower_strip (s : string) : lower (strip s) = strip (lower s).
Proof. unfold strip. now rewrite lower_rstrip, lower_lstrip. Qed.

Lemma lstrip_blank_app (l s : string) :
  blank l = true -> lstrip (l +:+ s) = lstrip s.
Proof.
  induction l as [|c l IH]; simpl; [reflexivity|].
  intros H. apply andb_true_iff in H as [Hc Hl]. rewrite Hc. auto.
Qed.

Lemma lstrip_solid (s : string) : starts_solid s = true -> lstrip s = s.
Proof.
  destruct s as [|c s]; simpl; [discriminate|].
  now destruct (isspace c).
Qed.

Lemma rstrip_blank (r : string) : blank r = true -> rstrip r = "".
Proof.
  induction r as [|c r IH]; simpl; [reflexivity|].
  intros H. apply andb_true_iff in H as [Hc Hr]. now rewrite (IH Hr), Hc.
Qed.

Lemma rstrip_solid_app (u r : string) :
  ends_solid u = true -> rstrip (u +:+ r) = u +:+ rstrip r.
Proof.
  induction u as [|c u IH]; [discriminate|].
  destruct u as [|d u].
  - simpl. intros Hc. destruct (rstrip r); [|reflexivity].
    now destruct (isspace c).
  - intros H. specialize (IH H).
    change (rstrip (String c (String d u +:+ r)) = String c (String d u +:+ rstrip r)).
    cbn [rstrip]. rewrite IH. reflexivity.
Qed.

Lemma ends_solid_app (a k : string) : ends_solid k = true -> ends_solid (a +:+ k) = true.
Proof.
  intros H. induction a as [|c a IH]; simpl; [exact H|].
  destruct (a +:+ k) eqn:E; [|exact IH].
  destruct a; simpl in E; [|discriminate]. subst. discriminate.
Qed.

(** Trimming removes exactly the padding. *)
Lemma strip_padded (l u r : string) :
  blank l = true -> blank r = true ->
  starts_solid u = true -> ends_solid u = true ->
  strip (l +:+ u +:+ r) = u.
Proof.
  intros Hl Hr Hs He. unfold strip.
  rewrite lstrip_blank_app by exact Hl.
  rewrite lstrip_solid.
  - rewrite rstrip_solid_app by exact He.
    rewrite rstrip_blank by exact Hr. apply append_nil_r.
  - destruct u; [discriminate | exact Hs].
Qed.

Lemma lstrip_keeps (k pre post : string) :
  starts_solid k = true ->
  exists pre', lstrip (pre +:+ k +:+ post) = pre' +:+ k +:+ post.
Proof.
  intros Hk. induction pre as [|c pre IH]; simpl.
  - exists "". simpl. apply lstrip_solid. destruct k; [discriminate | exact Hk].
  - destruct (isspace c); [exact IH | now exists (String c pre)].
Qed.

(** Trimming cannot cut into a word that has no blank at either end. *)
Lemma contains_strip (k t : string) :
  starts_solid k = true -> ends_solid k = true ->
  contains k t = true -> contains k (strip t) = true.
Proof.
  intros Hs He H. apply contains_inv in H as (pre & post & ->).
  unfold strip. destruct (lstrip_keeps k pre post Hs) as [pre' ->].
  rewrite <- append_assoc.
  rewrite rstrip_solid_app by (now apply ends_solid_app).
  rewrite append_assoc. apply contains_intro.
Qed.

Lemma starts_solid_lower (s : string) : starts_solid (lower s) = starts_solid s.
Proof. destruct s; simpl; [reflexivity | now rewrite isspace_lower_char]. Qed.

Lemma ends_solid_lower (s : string) : ends_solid (lower s) = ends_solid s.
Proof.
  induction s as [|c s IH]; [reflexivity|].
  destruct s as [|d s]; simpl in *; [now rewrite isspace_lower_char | exact IH].
Qed.

End TextFacts.

(* ===================================================================== *)
(** ** Facts about the matcher *)
(* ===================================================================== *)

Module ReFacts.
Import Text TextFacts Re.

Lemma strip_prefix_inv (w s s' : string) :
  strip_prefix w s = Some s' -> s = w +:+ s'.
Proof.
  revert s. induction w as [|a w IH]; intros s H; simpl in *.
  - congruence.
  - destruct s as [|b s]; [discriminate|].
    destruct (Ascii.eqb a b) eqn:E; [|discriminate].
    apply Ascii.eqb_eq in E as ->. now rewrite (IH _ H).
Qed.

Lemma substring_app (w s' : string) :
  String.substring 0 (String.length w) (w +:+ s') = w.
Proof.
  induction w as [|c w IH]; simpl.
  - now destruct s'.
  - now rewrite IH.
Qed.

Lemma consumed_app (w s' : string) : consumed (w +:+ s') s' = w.
Proof.
  unfold consumed. rewrite append_length.
  replace (String.length w + String.length s' - String.length s')
    with (String.length w) by lia.
  apply substring_app.
Qed.

Lemma repeat_cls_eq lazy p lo hi prev s k :
  repeat_cls lazy p lo hi prev s k =
  let stop := match lo with O => k prev s | S _ => None end in
  let more :=
    match s with
    | String c s' =>
        if p c && may_take hi
        then repeat_cls lazy p (Nat.pred lo) (option_map Nat.pred hi) (Some c) s' k
        else None
    | EmptyString => None
    end in
  if lazy
  then match stop with Some g => Some g | None => more end
  else match more with Some g => Some g | None => stop end.
Proof. destruct s; reflexivity. Qed.

Lemma first_of_two (lazy : bool) (stop more : option groups) (g : groups) :
  (if lazy
   then match stop with Some x => Some x | None => more end
   else match more with Some x => Some x | None => stop end) = Some g ->
  stop = Some g \/ more = Some g.
Proof. destruct lazy, stop, more; intros H; auto; try discriminate. Qed.

Lemma repeat_cls_sound lazy p s :
  forall lo hi prev k g,
    repeat_cls lazy p lo hi prev s k = Some g ->
    exists w s' prev',
      s = w +:+ s' /\ all_in p w = true /\ lo <= String.length w
      /\ within hi (String.length w) /\ k prev' s' = Some g.
Proof.
  induction s as [|c s IH]; intros lo hi prev k g H;
    rewrite repeat_cls_eq in H; cbv zeta in H;
    apply first_of_two in H as [H|H].
  - destruct lo; [|discriminate]. exists "", "", prev.
    repeat split; auto. destruct hi; simpl; lia.
  - discriminate.
  - destruct lo; [|discriminate]. exists "", (String c s), prev.
    repeat split; auto. destruct hi; simpl; lia.
  - destruct (p c) eqn:Hp; [|discriminate].
    destruct (may_take hi) eqn:Hh; [|discriminate]. simpl in H.
    apply IH in H as (w & s' & prev' & -> & Hall & Hlo & Hhi & Hk).
    exists (String c w), s', prev'. simpl. rewrite Hp, Hall.
    repeat split; auto; [lia|].
    destruct hi as [[|h]|]; simpl in *; try discriminate; lia.
Qed.

(** Whatever the matcher answers, it reached its continuation after
    reading a word the pattern allows. *)
Lemma exec_sound (r : regex) :
  forall prev s g k res,
    exec r prev s g k = Some res ->
    exists w s' prev' g',
      s = w +:+ s' /\ reads r g w g' /\ k prev' s' g' = Some res.
Proof.
  induction r as [|u|p|r1 IH1 r2 IH2|r1 IH1 r2 IH2|lazy lo hi p|n r IH| | |];
    intros prev s g k res H; simpl in H.
  - exists "", s, prev, g. now simpl.
  - destruct (strip_prefix u s) as [s'|] eqn:E; [|discriminate].
    apply strip_prefix_inv in E. exists u, s', (last_char prev u), g. now simpl.
  - destruct s as [|c s]; [discriminate|].
    destruct (p c) eqn:Hp; [|discriminate].
    exists (String c ""), s, (Some c), g. simpl. eauto 10.
  - apply IH1 in H as (w1 & s1 & prev1 & g1 & -> & R1 & H).
    apply IH2 in H as (w2 & s2 & prev2 & g2 & -> & R2 & H).
    exists (w1 +:+ w2), s2, prev2, g2. rewrite append_assoc.
    split; [reflexivity|]. split; [|exact H]. simpl. eauto 10.
  - destruct (exec r1 prev s g k) as [x|] eqn:E.
    + injection H as ->. apply IH1 in E as (w & s' & prev' & g' & ? & ? & ?).
      exists w, s', prev', g'. simpl. eauto 10.
    + apply IH2 in H as (w & s' & prev' & g' & ? & ? & ?).
      exists w, s', prev', g'. simpl. eauto 10.
  - apply repeat_cls_sound in H as (w & s' & prev' & ? & ? & ? & ? & ?).
    exists w, s', prev', g. simpl. eauto 10.
  - apply IH in H as (w & s' & prev' & g1 & -> & R & H).
    rewrite consumed_app in H.
    exists w, s', prev', (set_group n w g1). simpl. eauto 10.
  - destruct prev; [discriminate|]. exists "", s, None, g. now simpl.
  - destruct (at_end s); [|discriminate]. exists "", s, prev, g. now simpl.
  - destruct (xorb _ _); [|discriminate]. exists "", s, prev, g. now simpl.
Qed.

Lemma match_sound (r : regex) (s : string) (m : groups) :
  match_ r s = Some m -> exists w post, s = w +:+ post /\ reads r no_groups w m.
Proof.
  unfold match_. intros H.
  apply exec_sound in H as (w & s' & prev' & g' & -> & R & H).
  injection H as ->. eauto.
Qed.

Lemma search_from_sound (r : regex) (s : string) :
  forall prev m,
    search_from r prev s = Some m ->
    exists pre w post, s = pre +:+ w +:+ post /\ reads r no_groups w m.
Proof.
  induction s as [|c s IH]; intros prev m H; simpl in H.
  - destruct (exec r prev "" no_groups accept) eqn:E; [|discriminate].
    injection H as ->.
    apply exec_sound in E as (w & s' & prev' & g' & -> & R & H).
    injection H as ->. exists "", w, s'. auto.
  - destruct (exec r prev (String c s) no_groups accept) eqn:E.
    + injection H as ->.
      apply exec_sound in E as (w & s' & prev' & g' & -> & R & H).
      injection H as ->. exists "", w, s'. auto.
    + apply IH in H as (pre & w & post & -> & R).
      exists (String c pre), w, post. auto.
Qed.

Lemma search_sound (r : regex) (s : string) (m : groups) :
  search r s = Some m ->
  exists pre w post, s = pre +:+ w +:+ post /\ reads r no_groups w m.
Proof. apply search_from_sound. Qed.

End ReFacts.

(* ===================================================================== *)
(** ** Section A: the numbered response selector *)
(* ===================================================================== *)

Module SelectorFacts.
Import Text TextFacts ActionSelectNumberedResponse.

Lemma has_key_defines (domain : Domain) (key : string) :
  has_key key (responses_or_empty domain) = true <-> defines domain key.
Proof.
  unfold has_key, responses_or_empty, defines. split.
  - destruct (responses domain) as [| |store] eqn:E;
      try (rewrite lookup_empty; discriminate).
    destruct (store !! key) as [vs|] eqn:L; [|discriminate]. eauto.
  - intros (store & vs & -> & ->). reflexivity.
Qed.

Lemma has_crisis_terms_spec (txt : option string) :
  _has_crisis_terms txt = true <->
  exists k pre post,
    In k CRISIS_KEYWORDS /\ lower (default "" txt) = pre +:+ k +:+ post.
Proof.
  unfold _has_crisis_terms. rewrite existsb_exists. split.
  - intros (k & Hin & Hc). apply contains_inv in Hc as (pre & post & E). eauto.
  - intros (k & pre & post & Hin & E). exists k. split; [exact Hin|].
    rewrite E. apply contains_intro.
Qed.

Lemma crisis_signal_decided (tracker : Tracker) :
  (String.eqb (latest_intent_name tracker) "safety_critical"
   || _has_crisis_terms (msg_text (latest_message tracker))) = true
  <-> crisis_signal tracker.
Proof.
  unfold crisis_signal. rewrite orb_true_iff, String.eqb_eq, has_crisis_terms_spec.
  reflexivity.
Qed.

Lemma split1_at_first (base variant : string) :
  contains "/" base = false ->
  split1 "/" (base +:+ "/" +:+ variant) = [base; variant].
Proof.
  change ("/" +:+ variant) with (String "/" variant).
  induction base as [|c base IH]; simpl; intros H.
  - reflexivity.
  - apply orb_false_iff in H as [Hc Hb].
    destruct (Ascii.eqb c "/") eqn:E.
    + apply Ascii.eqb_eq in E as ->. simpl in Hc. discriminate.
    + now rewrite (IH Hb).
Qed.

Lemma contains_char_cons (a c : ascii) (s : string) :
  contains (String a "") (String c s) = Ascii.eqb a c || contains (String a "") s.
Proof. cbn [contains startswith]. now rewrite andb_true_r. Qed.

Lemma split1_two (s : string) :
  contains "/" s = true -> exists a b, split1 "/" s = [a; b].
Proof.
  induction s as [|c s IH]; intros H.
  - discriminate.
  - rewrite contains_char_cons, Ascii.eqb_sym in H. cbn [split1].
    destruct (Ascii.eqb c "/") eqn:E; [eauto|]. simpl in H.
    destruct (IH H) as (a & b & ->). eauto.
Qed.

(** With no crisis signal the selector takes the lookup path. *)
Lemma run_lookup_path (dispatcher : CollectingDispatcher) (tracker : Tracker)
    (domain : Domain) (base suffix : string) :
  ~ crisis_signal tracker ->
  contains "/" (latest_intent_name tracker) = true ->
  split1 "/" (latest_intent_name tracker) = [base; suffix] ->
  run dispatcher tracker domain =
  Ok ({| messages := messages dispatcher
           ++ [select_reply domain ("utter_" +:+ base +:+ "/" +:+ suffix)
                 ("utter_" +:+ base)] |}, []).
Proof.
  intros Hn Hc Hs. rewrite <- crisis_signal_decided in Hn.
  apply not_true_is_false in Hn.
  unfold run, _latest_intent_name. rewrite Hn, Hc, Hs. simpl.
  unfold select_reply, utter_message.
  destruct (has_key _ _); [reflexivity|]. now destruct (has_key _ _).
Qed.

Lemma run_plain_path (dispatcher : CollectingDispatcher) (tracker : Tracker)
    (domain : Domain) :
  ~ crisis_signal tracker ->
  contains "/" (latest_intent_name tracker) = false ->
  run dispatcher tracker domain =
  Ok ({| messages := messages dispatcher
           ++ [select_reply domain ("utter_" +:+ latest_intent_name tracker)
                 ("utter_" +:+ latest_intent_name tracker)] |}, []).
Proof.
  intros Hn Hc. rewrite <- crisis_signal_decided in Hn.
  apply not_true_is_false in Hn.
  unfold run, _latest_intent_name. rewrite Hn, Hc. simpl.
  unfold select_reply, utter_message.
  destruct (has_key _ _); reflexivity.
Qed.

Lemma run_crisis_path (dispatcher : CollectingDispatcher) (tracker : Tracker)
    (domain : Domain) :
  crisis_signal tracker ->
  run dispatcher tracker domain =
  Ok ({| messages := messages dispatcher
           ++ [if has_key "utter_crisis" (responses_or_empty domain)
               then response "utter_crisis" else text crisis_text] |}, []).
Proof.
  intros Hs. rewrite <- crisis_signal_decided in Hs.
  unfold run, _latest_intent_name. rewrite Hs. unfold utter_message.
  now destruct (has_key _ _).
Qed.

Lemma crisis_signal_dec (tracker : Tracker) :
  crisis_signal tracker \/ ~ crisis_signal tracker.
Proof.
  rewrite <- crisis_signal_decided.
  destruct (_ || _); [left | right]; congruence.
Qed.

(** C1.  Safety override: when the intent is "safety_critical" or the
    lower-cased user text contains a crisis phrase, the selector appends
    exactly one message and returns no event; the message is the
    template "utter_crisis" when the store defines it and the hard-coded
    safety text otherwise, whatever the intent is. *)
Theorem safety_override_preempts (dispatcher : CollectingDispatcher)
    (tracker : Tracker) (domain : Domain) :
  crisis_signal tracker ->
  (defines domain "utter_crisis" ->
   run dispatcher tracker domain =
   Ok ({| messages := messages dispatcher ++ [response "utter_crisis"] |}, []))
  /\ (~ defines domain "utter_crisis" ->
      run dispatcher tracker domain =
      Ok ({| messages := messages dispatcher ++ [text crisis_text] |}, [])).
Proof.
  intros Hs. rewrite (run_crisis_path _ _ _ Hs).
  rewrite <- has_key_defines.
  destruct (has_key _ _); split; intros H; congruence.
Qed.

Lemma safety_override_preempts_witness :
  crisis_signal (turn "anxiety/p0007" "I want to DIE")
  /\ run no_messages (turn "anxiety/p0007" "I want to DIE") sample_domain
     = Ok ({| messages := [response "utter_crisis"] |}, [])
  /\ run no_messages (turn "anxiety/p0007" "I want to DIE") empty_domain
     = Ok ({| messages := [text crisis_text] |}, []).
Proof.
  assert (Hs : crisis_signal (turn "anxiety/p0007" "I want to DIE")).
  { right. exists "i want to die", "", "". split; [simpl; auto 10 | reflexivity]. }
  split; [exact Hs|]. split.
  - apply (safety_override_preempts no_messages _ sample_domain Hs).
    apply has_key_defines. vm_compute. reflexivity.
  - apply (safety_override_preempts no_messages _ empty_domain Hs).
    rewrite <- has_key_defines. vm_compute. discriminate.
Defined.

Lemma select_reply_cascade (domain : Domain) (key parent : string) :
  cascade domain key parent (select_reply domain key parent).
Proof.
  unfold cascade, select_reply. rewrite <- !has_key_defines.
  destruct (has_key key _); [left; auto|].
  destruct (has_key parent _); right; [left | right]; repeat split; congruence.
Qed.

(** C2.  Lookup cascade: with no crisis signal, an intent [base/variant]
    is answered by the template "utter_base/variant" if the store
    defines it, else by "utter_base" if defined, else by the generic
    text, and an intent without separator by "utter_<intent>" or the
    generic text.  On every input whatsoever the selector appends
    exactly one message and returns the empty event list. *)
Theorem lookup_cascade_single_reply (dispatcher : CollectingDispatcher)
    (tracker : Tracker) (domain : Domain) :
  (~ crisis_signal tracker ->
   (forall base variant,
      latest_intent_name tracker = base +:+ "/" +:+ variant ->
      contains "/" base = false ->
      exists m,
        run dispatcher tracker domain
        = Ok ({| messages := messages dispatcher ++ [m] |}, [])
        /\ cascade domain ("utter_" +:+ base +:+ "/" +:+ variant)
             ("utter_" +:+ base) m)
   /\ (contains "/" (latest_intent_name tracker) = false ->
       exists m,
         run dispatcher tracker domain
         = Ok ({| messages := messages dispatcher ++ [m] |}, [])
         /\ cascade domain ("utter_" +:+ latest_intent_name tracker)
              ("utter_" +:+ latest_intent_name tracker) m))
  /\ exists m,
       run dispatcher tracker domain
       = Ok ({| messages := messages dispatcher ++ [m] |}, []).
Proof.
  split.
  - intros Hn. split.
    + intros base variant E Hb. eexists. split.
      * apply run_lookup_path; [exact Hn | |].
        -- rewrite E. apply contains_intro.
        -- rewrite E. now apply split1_at_first.
      * apply select_reply_cascade.
    + intros Hc. eexists. split.
      * now apply run_plain_path.
      * apply select_reply_cascade.
  - destruct (crisis_signal_dec tracker) as [Hs|Hn].
    + eexists. now apply run_crisis_path.
    + destruct (contains "/" (latest_intent_name tracker)) eqn:Hc.
      * destruct (split1_two _ Hc) as (a & b & Hab).
        eexists. now apply (run_lookup_path _ _ _ a b).
      * eexists. now apply run_plain_path.
Qed.

Lemma lookup_cascade_single_reply_witness :
  ~ crisis_signal (turn "anxiety/p0007" "hello")
  /\ (exists m,
        run no_messages (turn "anxiety/p0007" "hello") sample_domain
        = Ok ({| messages := [m] |}, [])
        /\ cascade sample_domain "utter_anxiety/p0007" "utter_anxiety" m)
  /\ (exists m,
        run no_messages empty_turn empty_domain = Ok ({| messages := [m] |}, [])
        /\ cascade empty_domain "utter_" "utter_" m).
Proof.
  assert (H1 : ~ crisis_signal (turn "anxiety/p0007" "hello")).
  { rewrite <- crisis_signal_decided. vm_compute. discriminate. }
  assert (H2 : ~ crisis_signal empty_turn).
  { rewrite <- crisis_signal_decided. vm_compute. discriminate. }
  split; [exact H1|]. split.
  - exact (proj1 (proj1 (lookup_cascade_single_reply no_messages
                           (turn "anxiety/p0007" "hello") sample_domain) H1)
             "anxiety" "p0007" eq_refl eq_refl).
  - exact (proj2 (proj1 (lookup_cascade_single_reply no_messages
                           empty_turn empty_domain) H2) eq_refl).
Defined.

End SelectorFacts.

(* ===================================================================== *)
(** ** Section B: the date parser and the yes/no normalizer *)
(* ===================================================================== *)

Module SlotFacts.
Import Text TextFacts.

Lemma in_set_In (x : string) (xs : list string) : in_set x xs = true <-> In x xs.
Proof.
  unfold in_set. rewrite existsb_exists. split.
  - intros (y & Hy & E). apply String.eqb_eq in E. now subst.
  - intros H. exists x. split; [exact H | apply String.eqb_refl].
Qed.

Lemma in_set_not_In (x : string) (xs : list string) :
  in_set x xs = false <-> ~ In x xs.
Proof. rewrite <- in_set_In. destruct (in_set x xs); split; congruence. Qed.

(** C8.  [parse_date] on "tomorrow" and on "ugma" gives the ISO date of
    the day after the current one; "tmrw" is first rewritten to
    "tomorrow" and so gives the same answer; "today" and "now" give the
    ISO date of the current day. *)
Theorem parse_date_tomorrow_today (dateparser : Dateparser) (now : Datetime.datetime) :
  parse_date dateparser now (Some "tomorrow")
  = Some (Datetime.isoformat (Datetime.ordinal now + 1))
  /\ parse_date dateparser now (Some "ugma")
     = Some (Datetime.isoformat (Datetime.ordinal now + 1))
  /\ normalize_date_text (Some "tmrw") = "tomorrow"
  /\ parse_date dateparser now (Some "tmrw") = parse_date dateparser now (Some "tomorrow")
  /\ parse_date dateparser now (Some "today")
     = Some (Datetime.isoformat (Datetime.ordinal now))
  /\ parse_date dateparser now (Some "now")
     = Some (Datetime.isoformat (Datetime.ordinal now)).
Proof. repeat split. Qed.

Example tomorrow_of_sample_now :
  parse_date None sample_now (Some " Ugma ") = Some "2026-11-05"
  /\ parse_date None sample_now (Some "karon") = Some "2026-11-04".
Proof. split; vm_compute; reflexivity. Qed.

Lemma next_week_not_a_date_token : Re.search date_token_re "next week" = None.
Proof. vm_compute. reflexivity. Qed.

(** C6.  What the code does on "next week": the normalized text keeps
    its blank, so the comparison with "nextweek" fails and the answer
    is whatever the optional fuzzy parser makes of "next week" (nothing,
    when it is absent or finds no date), never the seven-day rule; the
    Cebuano "sunod semana" is rewritten to "next week" and fares the
    same.  Only the spelling "nextweek" reaches the rule. *)
Theorem parse_date_next_week_falls_through (dateparser : Dateparser)
    (now : Datetime.datetime) :
  let fuzzy :=
    match dateparser with
    | Some parse =>
        option_map (fun dt => Datetime.isoformat (Datetime.date dt)) (parse "next week")
    | None => None
    end in
  normalize_date_text (Some "next week") = "next week"
  /\ normalize_date_text (Some "sunod semana") = "next week"
  /\ parse_date dateparser now (Some "next week") = fuzzy
  /\ parse_date dateparser now (Some "sunod semana") = fuzzy
  /\ parse_date None now (Some "next week") = None
  /\ parse_date finds_nothing now (Some "sunod semana") = None
  /\ parse_date dateparser now (Some "nextweek")
     = Some (Datetime.isoformat (Datetime.ordinal now + 7)).
Proof.
  assert (E1 : normalize_date_text (Some "next week") = "next week")
    by (vm_compute; reflexivity).
  assert (E2 : normalize_date_text (Some "sunod semana") = "next week")
    by (vm_compute; reflexivity).
  assert (F : forall v, normalize_date_text v = "next week" ->
                parse_date dateparser now v =
                match dateparser with
                | Some parse =>
                    option_map (fun dt => Datetime.isoformat (Datetime.date dt))
                      (parse "next week")
                | None => None
                end).
  { intros v E. unfold parse_date. rewrite E. cbn [in_set existsb].
    change (String.eqb "next week" "today") with false.
    change (String.eqb "next week" "now") with false.
    change (String.eqb "next week" "tomorrow") with false.
    change (String.eqb "next week" "nextweek") with false.
    cbn [orb]. rewrite next_week_not_a_date_token.
    destruct dateparser as [parse|]; [|reflexivity].
    now destruct (parse "next week"). }
  cbv zeta. repeat split; auto.
Qed.

Lemma phrases_solid :
  forallb solid AFFIRMATIVE = true /\ forallb solid NEGATIVE = true.
Proof. split; vm_compute; reflexivity. Qed.

Lemma phrases_disjoint :
  forallb (fun p => negb (in_set p AFFIRMATIVE)) NEGATIVE = true.
Proof. vm_compute. reflexivity. Qed.

Lemma phrase_solid (u : string) (phrases : list string) :
  forallb solid phrases = true -> is_phrase u phrases ->
  starts_solid u = true /\ ends_solid u = true.
Proof.
  intros Hall Hin. rewrite forallb_forall in Hall.
  specialize (Hall _ Hin). unfold solid in Hall.
  apply andb_true_iff in Hall.
  now rewrite starts_solid_lower, ends_solid_lower in Hall.
Qed.

Lemma normalized_padded (l u r : string) (phrases : list string) :
  forallb solid phrases = true -> is_phrase u phrases ->
  blank l = true -> blank r = true ->
  lower (strip (default "" (Some (l +:+ u +:+ r)))) = lower u.
Proof.
  intros Hall Hin Hl Hr. destruct (phrase_solid _ _ Hall Hin) as [Hs He].
  simpl. now rewrite strip_padded.
Qed.

(** C9, counterexample.  "Maybe" matches neither phrase set, yet it does
    not come back unchanged: the answer is the lower-cased "maybe". *)
Lemma normalize_yes_no_changes_unmatched :
  ~ is_phrase "Maybe" AFFIRMATIVE /\ ~ is_phrase "Maybe" NEGATIVE
  /\ normalize_yes_no (Some "Maybe") = "maybe"
  /\ normalize_yes_no (Some "Maybe") <> "Maybe".
Proof.
  unfold is_phrase. rewrite <- !in_set_not_In.
  repeat split; try (vm_compute; reflexivity). vm_compute. discriminate.
Qed.

(** C9, as amended.  A case variant of an affirmative phrase, padded
    with any blanks, is answered "yes", and of a negative phrase "no";
    any other input comes back trimmed and lower-cased (so "maybe" comes
    back as it is); a missing value gives the empty string.  The
    function is total. *)
Theorem normalize_yes_no_amended :
  (forall l u r, blank l = true -> blank r = true ->
     is_phrase u AFFIRMATIVE -> normalize_yes_no (Some (l +:+ u +:+ r)) = "yes")
  /\ (forall l u r, blank l = true -> blank r = true ->
        is_phrase u NEGATIVE -> normalize_yes_no (Some (l +:+ u +:+ r)) = "no")
  /\ (forall value,
        let v := lower (strip (default "" value)) in
        ~ In v AFFIRMATIVE -> ~ In v NEGATIVE -> normalize_yes_no value = v)
  /\ is_phrase "sige" AFFIRMATIVE /\ is_phrase "oo" AFFIRMATIVE
  /\ is_phrase "dili" NEGATIVE /\ is_phrase "ayaw" NEGATIVE
  /\ normalize_yes_no (Some "maybe") = "maybe"
  /\ normalize_yes_no None = "".
Proof.
  destruct phrases_solid as [Ha Hn].
  split; [|split; [|split]].
  - intros l u r Hl Hr Hu. unfold normalize_yes_no.
    rewrite (normalized_padded l u r _ Ha Hu Hl Hr).
    apply in_set_In in Hu. now rewrite Hu.
  - intros l u r Hl Hr Hu. unfold normalize_yes_no.
    rewrite (normalized_padded l u r _ Hn Hu Hl Hr).
    pose proof phrases_disjoint as D. rewrite forallb_forall in D.
    specialize (D _ Hu). apply negb_true_iff in D. rewrite D.
    apply in_set_In in Hu. now rewrite Hu.
  - intros value v Ha' Hn'. unfold normalize_yes_no. fold v.
    apply in_set_not_In in Ha', Hn'. now rewrite Ha', Hn'.
  - unfold is_phrase. rewrite <- !in_set_In.
    repeat split; vm_compute; reflexivity.
Qed.

Lemma normalize_yes_no_amended_witness :
  normalize_yes_no (Some ("  " +:+ "SiGe" +:+ " ")) = "yes"
  /\ normalize_yes_no (Some ("" +:+ "AYAW" +:+ "  ")) = "no"
  /\ normalize_yes_no (Some " Call me later ") = "call me later".
Proof.
  destruct normalize_yes_no_amended as (Hy & Hn & Hp & _).
  split; [|split].
  - apply Hy; [reflexivity | reflexivity |].
    apply in_set_In. vm_compute. reflexivity.
  - apply Hn; [reflexivity | reflexivity |].
    apply in_set_In. vm_compute. reflexivity.
  - apply (Hp (Some " Call me later ")); apply in_set_not_In; vm_compute; reflexivity.
Defined.

End SlotFacts.

Module TimeFacts.
Import Text TextFacts Re ReFacts.

Lemma same_answer_eq (a b : result (option string)) : same_answer a b = true -> a = b.
Proof.
  destruct a as [[x|]|], b as [[y|]|]; simpl; try discriminate; auto.
  intros E. apply String.eqb_eq in E. now subst.
Qed.

(** Every text of the numeric clock pattern with an hour and a minute
    below 100, checked one by one. *)
Lemma clock_cases_checked (now : Datetime.datetime) :
  forallb (fun h =>
    forallb (fun hs =>
      forallb (fun mm =>
        forallb (fun ap =>
          same_answer (parse_time now (Some (clock_text hs mm ap)))
                      (Ok (clock_answer h mm ap)))
          [None; Some AM; Some PM])
        (None :: map Some (seq 0 100)))
      [decimal h; two_digits h])
    (seq 0 100) = true.
Proof. vm_compute. reflexivity. Qed.

Lemma clock_case (now : Datetime.datetime) (h : nat) (hs : string)
    (mm : option nat) (ap : option meridiem) :
  In h (seq 0 100) -> In hs [decimal h; two_digits h] ->
  In mm (None :: map Some (seq 0 100)) ->
  parse_time now (Some (clock_text hs mm ap)) = Ok (clock_answer h mm ap).
Proof.
  intros Ih Ihs Imm.
  assert (Iap : In ap [None; Some AM; Some PM])
    by (destruct ap as [[]|]; simpl; auto).
  apply same_answer_eq.
  pose proof (proj1 (forallb_forall _ _) (clock_cases_checked now) h Ih) as A1.
  pose proof (proj1 (forallb_forall _ _) A1 hs Ihs) as A2.
  pose proof (proj1 (forallb_forall _ _) A2 mm Imm) as A3.
  exact (proj1 (forallb_forall _ _) A3 ap Iap).
Qed.

Lemma fmt02d_two_digits (n : nat) : n < 100 -> fmt02d n = two_digits n.
Proof.
  intros H.
  assert (A : forallb (fun n => String.eqb (fmt02d n) (two_digits n)) (seq 0 100) = true)
    by (vm_compute; reflexivity).
  rewrite forallb_forall in A. apply String.eqb_eq, A, in_seq. lia.
Qed.

Lemma hhmm_well_formed (h m : nat) :
  h < 24 -> m < 60 -> well_formed_hhmm (fmt02d h +:+ ":" +:+ fmt02d m).
Proof.
  intros Hh Hm. exists h, m. rewrite !fmt02d_two_digits by lia. auto.
Qed.

Lemma digits_value_total (w : string) :
  forall acc, all_in isdecimal w = true -> exists n, digits_value acc w = Some n.
Proof.
  induction w as [|c w IH]; intros acc H; simpl in *; [eauto|].
  apply andb_true_iff in H as [Hc Hw]. rewrite Hc. auto.
Qed.

Lemma int_total (w : string) :
  all_in isdecimal w = true -> 1 <= String.length w -> exists n, int w = Ok n.
Proof.
  intros Hd Hl. destruct (digits_value_total w 0 Hd) as [n E].
  exists n. unfold int. rewrite E. destruct w; [simpl in Hl; lia | reflexivity].
Qed.

(** The groups of a match of the clock pattern: the hour is a non-empty
    run of digits, the minute is absent or a run of digits. *)
Lemma clock_groups (w : string) (m : groups) :
  reads clock_re no_groups w m ->
  (exists w1, m 1 = Some w1 /\ all_in isdecimal w1 = true /\ 1 <= String.length w1)
  /\ (m 2 = None
      \/ exists w2, m 2 = Some w2 /\ all_in isdecimal w2 = true /\ 2 <= String.length w2).
Proof.
  unfold clock_re, cat, digits, Maybe. simpl. intros H. break_reads;
    (split; [eexists; split; [reflexivity | auto] | ]);
    first [ left; reflexivity | right; eexists; split; [reflexivity | auto] ].
Qed.

(** The numeric clock rule never fails, and what it answers is a time
    of day. *)
Lemma clock_rule_total (s : string) :
  exists c, clock_rule s = Ok c /\ forall t, c = Some t -> well_formed_hhmm t.
Proof.
  unfold clock_rule. destruct (match_ clock_re s) as [m|] eqn:E.
  - apply match_sound in E as (w & post & -> & R).
    apply clock_groups in R as [(w1 & E1 & D1 & L1) H2].
    rewrite E1. simpl. destruct (int_total w1 D1 L1) as [h ->]. simpl.
    assert (M : exists mins, int_group_or_0 (m 2) = Ok mins).
    { destruct H2 as [-> | (w2 & -> & D2 & L2)]; [now exists 0|].
      destruct (int_total w2 D2) as [n En]; [lia|].
      exists n. destruct w2; [simpl in L2; lia | exact En]. }
    destruct M as [mins ->]. simpl.
    destruct (to_24h (m 3) h <? 24)%nat eqn:Hh; simpl.
    + destruct (mins <? 60)%nat eqn:Hm.
      * eexists. split; [reflexivity|]. intros t [= <-].
        apply hhmm_well_formed; [now apply Nat.ltb_lt | now apply Nat.ltb_lt].
      * eexists. split; [reflexivity|]. discriminate.
    + eexists. split; [reflexivity|]. discriminate.
  - eexists. split; [reflexivity|]. discriminate.
Qed.

Lemma word_map_well_formed (now : Datetime.datetime) (s t : string) :
  Datetime.valid_time now ->
  dict_get s (WORD_MAP now) = Some t -> well_formed_hhmm t.
Proof.
  intros [Hh Hm]. unfold WORD_MAP. cbn [dict_get].
  repeat (destruct (String.eqb s _);
          [ intros [= <-];
            first [ now exists 9, 0; repeat split; auto; lia
                  | now exists 12, 0; repeat split; auto; lia
                  | now exists 15, 0; repeat split; auto; lia
                  | now exists 18, 0; repeat split; auto; lia
                  | now apply hhmm_well_formed ] | ]).
  discriminate.
Qed.

(** What the keyword table does to the trimmed, lower-cased text [t]:
    the first keyword found replaces the whole text, and none of the
    replacements contains a later keyword. *)
Lemma normalize_time_cases (value : option string) :
  let t := lower (strip (default "" value)) in
  (contains "buntag" t = true -> normalize_time_text value = "morning")
  /\ (contains "buntag" t = false -> contains "hapon" t = true ->
      normalize_time_text value = "afternoon")
  /\ (contains "buntag" t = false -> contains "hapon" t = false ->
      contains "udto" t = true -> normalize_time_text value = "noon")
  /\ (contains "buntag" t = false -> contains "hapon" t = false ->
      contains "udto" t = false -> contains "gabii" t = true ->
      normalize_time_text value = "evening").
Proof.
  intros t. unfold normalize_time_text, CEB_TIME_KEYWORDS. cbn [fold_left]. fold t.
  repeat split.
  - intros ->. reflexivity.
  - intros -> ->. reflexivity.
  - intros -> -> ->. reflexivity.
  - intros -> -> -> ->. reflexivity.
Qed.

Lemma part_word_kept (k : string) (value : option string) :
  solid k = true ->
  contains k (lower (default "" value)) = true ->
  contains k (lower (strip (default "" value))) = true.
Proof.
  intros Hk H. apply andb_true_iff in Hk as [Hs He].
  rewrite lower_strip. now apply contains_strip.
Qed.

(** A text with a part-of-day word of the [alas] pattern is normalized
    to a key of the word map, which the clock rule leaves alone. *)
Lemma part_of_day_is_word_map_key (now : Datetime.datetime) (value : option string) :
  contains "buntag" (lower (default "" value)) = true
  \/ contains "hapon" (lower (default "" value)) = true
  \/ contains "gabii" (lower (default "" value)) = true ->
  exists t, dict_get (normalize_time_text value) (WORD_MAP now) = Some t
            /\ clock_rule (normalize_time_text value) = Ok None.
Proof.
  intros H.
  destruct (normalize_time_cases value) as (Cb & Ch & Cu & Cg). cbv zeta in *.
  destruct (contains "buntag" (lower (strip (default "" value)))) eqn:Eb.
  { rewrite Cb by reflexivity. now exists "09:00". }
  destruct (contains "hapon" (lower (strip (default "" value)))) eqn:Eh.
  { rewrite Ch by reflexivity. now exists "15:00". }
  destruct (contains "udto" (lower (strip (default "" value)))) eqn:Eu.
  { rewrite Cu by reflexivity. now exists "12:00". }
  destruct (contains "gabii" (lower (strip (default "" value)))) eqn:Eg.
  { rewrite Cg by reflexivity. now exists "18:00". }
  exfalso. destruct H as [H|[H|H]]; apply part_word_kept in H;
    try reflexivity; congruence.
Qed.

Lemma word_map_keys (now : Datetime.datetime) (s t : string) :
  dict_get s (WORD_MAP now) = Some t -> In s (map fst (WORD_MAP now)).
Proof.
  unfold WORD_MAP. cbn [dict_get map fst].
  repeat match goal with
         | |- context [String.eqb s ?k] =>
             destruct (String.eqb_spec s k) as [->|_]; [simpl; auto 6|]
         end.
  discriminate.
Qed.

(** A match of the [alas] pattern ends with one of its three
    part-of-day words. *)
Lemma alas_match_has_part (t : string) (m : groups) :
  search alas_re t = Some m ->
  contains "buntag" t = true \/ contains "hapon" t = true
  \/ contains "gabii" t = true.
Proof.
  intros H. apply search_sound in H as (pre & w & post & -> & R).
  unfold alas_re, cat, digits, spaces, Maybe in R. simpl in R.
  break_reads;
    match goal with
    | |- context [?a +:+ ?b +:+ ?c +:+ ?d +:+ ?e +:+ ?f +:+ "buntag" +:+ ""] =>
        left; apply (contains_at _ (pre +:+ a +:+ b +:+ c +:+ d +:+ e +:+ f) post)
    | |- context [?a +:+ ?b +:+ ?c +:+ ?d +:+ ?e +:+ ?f +:+ "hapon" +:+ ""] =>
        right; left;
        apply (contains_at _ (pre +:+ a +:+ b +:+ c +:+ d +:+ e +:+ f) post)
    | |- context [?a +:+ ?b +:+ ?c +:+ ?d +:+ ?e +:+ ?f +:+ "gabii" +:+ ""] =>
        right; right;
        apply (contains_at _ (pre +:+ a +:+ b +:+ c +:+ d +:+ e +:+ f) post)
    end;
    rewrite !append_assoc; reflexivity.
Qed.

(** C10.  [parse_time] returns on every input, the missing value and
    the empty string included, without raising; a result other than
    [None] is a zero-padded five-character "HH:MM" with the hour below 24
    and the minute below 60.  The [alas] rule never supplies the result:
    a text with "buntag", "hapon" or "gabii" is normalized to a key of
    the word map, so whenever the [alas] pattern matches, the word map
    has already answered. *)
Theorem parse_time_total_well_formed (now : Datetime.datetime) (value : option string) :
  Datetime.valid_time now ->
  exists answer,
    parse_time now value = Ok answer
    /\ (forall t, answer = Some t -> well_formed_hhmm t)
    /\ (contains "buntag" (lower (default "" value)) = true
        \/ contains "hapon" (lower (default "" value)) = true
        \/ contains "gabii" (lower (default "" value)) = true ->
        In (normalize_time_text value) (map fst (WORD_MAP now)))
    /\ (forall m2, search alas_re (lower (default "" value)) = Some m2 ->
        exists t, dict_get (normalize_time_text value) (WORD_MAP now) = Some t
                  /\ answer = Some t).
Proof.
  intros Hnow. unfold parse_time.
  destruct (clock_rule_total (normalize_time_text value)) as (c & Ec & Wc).
  rewrite Ec. cbn [mbind result_bind].
  pose proof (part_of_day_is_word_map_key now value) as Key.
  pose proof (word_map_keys now) as Keys.
  destruct c as [hhmm|].
  - exists (Some hhmm). split; [reflexivity|]. split; [exact Wc|]. split.
    + intros H. destruct (Key H) as (t & Et & _). eapply Keys, Et.
    + intros m2 Hm. apply alas_match_has_part in Hm.
      destruct (Key Hm) as (t & _ & En). congruence.
  - destruct (dict_get (normalize_time_text value) (WORD_MAP now)) as [t|] eqn:Ew.
    + exists (Some t). split; [reflexivity|]. split.
      * intros t' [= <-]. eapply word_map_well_formed; eauto.
      * split; [intros _; eapply Keys, Ew | eauto].
    + assert (Ea : search alas_re (lower (default "" value)) = None).
      { destruct (search alas_re (lower (default "" value))) as [m2|] eqn:Em;
          [|reflexivity].
        apply alas_match_has_part in Em. destruct (Key Em) as (t & Et & _).
        congruence. }
      exists None. unfold alas_rule. rewrite Ea.
      split; [reflexivity|]. split; [discriminate|]. split.
      * intros H. destruct (Key H) as (t & Et & _). congruence.
      * intros m2 Hm. congruence.
Qed.

Lemma parse_time_total_well_formed_witness :
  Datetime.valid_time sample_now
  /\ exists answer,
       parse_time sample_now (Some "Alas 11 sa gabii") = Ok answer
       /\ (forall t, answer = Some t -> well_formed_hhmm t).
Proof.
  assert (V : Datetime.valid_time sample_now) by (unfold Datetime.valid_time; simpl; lia).
  split; [exact V|].
  destruct (parse_time_total_well_formed sample_now (Some "Alas 11 sa gabii") V)
    as (answer & E & W & _).
  exists answer. split; [exact E | exact W].
Defined.

(** C5, on the code.  A text "alas N sa <part>" never reaches the
    [alas] rule: the part-of-day word turns the whole text into its
    word-map key, and the answer is the fixed time of that key whatever
    the hour N is; "alas 10 sa buntag" gives "09:00". *)
Theorem alas_text_answered_by_word_map (now : Datetime.datetime) (n : nat) :
  1 <= n <= 12 ->
  parse_time now (Some ("alas " +:+ decimal n +:+ " sa buntag")) = Ok (Some "09:00")
  /\ parse_time now (Some ("alas " +:+ decimal n +:+ " sa hapon")) = Ok (Some "15:00")
  /\ parse_time now (Some ("alas " +:+ decimal n +:+ " sa gabii")) = Ok (Some "18:00")
  /\ alas_rule (Some ("alas " +:+ decimal n +:+ " sa buntag"))
     = Ok (Some (two_digits (if (n =? 12)%nat then 0 else n) +:+ ":00")).
Proof.
  intros H.
  assert (A : In n (seq 1 12)) by (apply in_seq; lia).
  cbn [seq In] in A.
  repeat (destruct A as [<- | A]; [repeat split; vm_compute; reflexivity|]).
  destruct A.
Qed.

Lemma alas_text_answered_by_word_map_witness :
  parse_time sample_now (Some "alas 10 sa buntag") = Ok (Some "09:00")
  /\ alas_rule (Some "alas 10 sa buntag") = Ok (Some "10:00").
Proof.
  assert (H : 1 <= 10 <= 12) by lia.
  destruct (alas_text_answered_by_word_map sample_now 10 H) as (Hb & _ & _ & Ha).
  split; [exact Hb | exact Ha].
Defined.

(** C7.  The four sample times, and the numeric clock pattern in
    general: for an hour of one or two digits, an optional two-digit
    minute and an optional meridiem, "pm" adds 12 unless the hour is 12,
    "am" turns hour 12 into 0, and the text is answered, zero-padded,
    exactly when the resulting hour is below 24 and the minute below 60;
    otherwise there is no answer. *)
Theorem parse_time_clock_pattern (now : Datetime.datetime) :
  parse_time now (Some "3pm") = Ok (Some "15:00")
  /\ parse_time now (Some "12am") = Ok (Some "00:00")
  /\ parse_time now (Some "alas 3 sa hapon") = Ok (Some "15:00")
  /\ parse_time now (Some "buntag") = Ok (Some "09:00")
  /\ forall (h : nat) (hs : string) (mm : option nat) (ap : option meridiem),
       h < 100 -> hs = decimal h \/ hs = two_digits h ->
       (forall m, mm = Some m -> m < 100) ->
       parse_time now (Some (clock_text hs mm ap)) = Ok (clock_answer h mm ap).
Proof.
  repeat (split; [vm_compute; reflexivity|]).
  intros h hs mm ap Hh Hhs Hmm. apply clock_case.
  - apply in_seq. lia.
  - destruct Hhs as [-> | ->]; simpl; auto.
  - destruct mm as [m|]; [right | now left].
    apply in_map, in_seq. specialize (Hmm m eq_refl). lia.
Qed.

Lemma parse_time_clock_pattern_witness :
  parse_time sample_now (Some "7:45pm") = Ok (Some "19:45")
  /\ parse_time sample_now (Some "13pm") = Ok None
  /\ parse_time sample_now (Some "09:60") = Ok None.
Proof.
  destruct (parse_time_clock_pattern sample_now) as (_ & _ & _ & _ & G).
  split; [|split].
  - apply (G 7 "7" (Some 45) (Some PM)); [lia | now left |].
    intros m [= <-]. lia.
  - apply (G 13 "13" None (Some PM)); [lia | now left | discriminate].
  - apply (G 9 "09" (Some 60) None); [lia | now right |].
    intros m [= <-]. lia.
Defined.

End TimeFacts.

(* ===================================================================== *)
(** ** The mood canonicalizer and the issue analysis *)
(* ===================================================================== *)

Module MoodFacts.
Import Text TextFacts Re ReFacts.

Lemma all_in_app (p : ascii -> bool) (a b : string) :
  all_in p (a +:+ b) = all_in p a && all_in p b.
Proof.
  induction a as [|c a IH]; simpl; [reflexivity|].
  now rewrite IH, andb_assoc.
Qed.

(** A match of the suffix pattern: group 1 is a non-empty run of
    [[a-z_]] at the start of the text, followed by ["_p"] and a
    backslash. *)
Lemma variant_suffix_groups (x : string) (m : groups) :
  match_ variant_suffix_re x = Some m ->
  exists base rest,
    m 1 = Some base /\ x = base +:+ "_p" +:+ String backslash rest
    /\ all_in word_char_az_ base = true.
Proof.
  intros H. apply match_sound in H as (w & post & -> & R).
  unfold variant_suffix_re, cat in R. simpl in R. break_reads.
  eexists _, _. split; [reflexivity|]. split; [|eassumption].
  rewrite !append_assoc. reflexivity.
Qed.

(** The pattern asks for a backslash, so a text of [[a-z_]] alone is
    never matched. *)
Lemma variant_suffix_needs_backslash (b : string) :
  all_in word_char_az_ b = true -> match_ variant_suffix_re b = None.
Proof.
  intros Hb. destruct (match_ variant_suffix_re b) as [m|] eqn:E; [|reflexivity].
  apply variant_suffix_groups in E as (base & rest & _ & -> & _).
  rewrite all_in_app in Hb. apply andb_true_iff in Hb as [_ Hb].
  simpl in Hb. discriminate.
Qed.

Lemma first_alias_cases (b : string) (d : list (string * string)) :
  first_alias b d = b \/ In (first_alias b d) (map snd d).
Proof.
  induction d as [|[k v] d IH]; simpl; [now left|].
  destruct (startswith k b); [right; now left|].
  destruct IH; [now left | right; now right].
Qed.

Lemma alias_values_fixed :
  forall v, In v (map snd aliases) -> _canonical_mood_from_intent v = Ok v.
Proof.
  intros v H. cbn [aliases map snd In] in H.
  repeat (destruct H as [<- | H]; [vm_compute; reflexivity|]).
  destruct H.
Qed.

Lemma canonical_plain (b : string) :
  startswith "express_" b = false ->
  match_ variant_suffix_re b = None ->
  _canonical_mood_from_intent b = Ok (first_alias b aliases).
Proof. intros He Hm. unfold _canonical_mood_from_intent. now rewrite He, Hm. Qed.

Lemma canonical_after_alias (b : string) :
  _canonical_mood_from_intent b = Ok (first_alias b aliases) ->
  _canonical_mood_from_intent (first_alias b aliases) = Ok (first_alias b aliases).
Proof.
  intros H. destruct (first_alias_cases b aliases) as [E | Hin].
  - now rewrite E at 1.
  - now apply alias_values_fixed.
Qed.

(** C4, counterexample.  "express_grief" is canonicalized to "grief",
    and "grief" in turn to "grief_loss". *)
Lemma canonical_mood_not_idempotent :
  _canonical_mood_from_intent "express_grief" = Ok "grief"
  /\ _canonical_mood_from_intent "grief" = Ok "grief_loss"
  /\ (_canonical_mood_from_intent "express_grief" ≫= _canonical_mood_from_intent)
     <> _canonical_mood_from_intent "express_grief".
Proof. repeat split; try (vm_compute; reflexivity). vm_compute. discriminate. Qed.

(** Without a backslash in the intent nothing is stripped: the whole
    intent goes to the alias table. *)
Lemma suffix_kept_without_backslash (x : string) :
  contains (String backslash "") x = false ->
  startswith "express_" x = false ->
  _canonical_mood_from_intent x = Ok (first_alias x aliases).
Proof.
  intros Hb He. apply canonical_plain; [exact He|].
  destruct (match_ variant_suffix_re x) as [m|] eqn:E; [|reflexivity].
  apply variant_suffix_groups in E as (base & rest & _ & -> & _).
  rewrite (contains_at (String backslash "") (base +:+ "_p") rest) in Hb;
    [discriminate|].
  now rewrite !append_assoc.
Qed.

(** C3, on the code.  The suffix pattern asks for a backslash after
    "_p", so "anxiety_p0007" is not stripped: the mood is the whole
    intent, no support template is keyed by it, and with an empty store
    the handler sends the generic text and sets the slot "mood" to
    "anxiety_p0007".  A suffix spelled with a backslash and the letter d
    is the one that is stripped. *)
Theorem analyze_issue_keeps_numeric_suffix :
  match_ variant_suffix_re "anxiety_p0007" = None
  /\ _canonical_mood_from_intent "anxiety_p0007" = Ok "anxiety_p0007"
  /\ ActionAnalyzeIssue.run no_messages (turn "anxiety_p0007" "") empty_domain
     = Ok ({| messages := [text listen_text] |}, [SlotSet "mood" "anxiety_p0007"])
  /\ _canonical_mood_from_intent ("anxiety_p" +:+ String backslash "d") = Ok "anxiety".
Proof. repeat split; vm_compute; reflexivity. Qed.

End MoodFacts.

(* ===================================================================== *)
(** ** Sample runs *)
(* ===================================================================== *)

Module Samples.
Import Text Re.

Example strip_lower_sample : lower (strip "  Oo, SIGE  ") = "oo, sige".
Proof. reflexivity. Qed.

Example replace_sample :
  replace "ab" "X" "zababcab" = "zXXcX" /\ replace "aa" "X" "aaa" = "Xa"
  /\ replace "" "-" "ab" = "-a-b-".
Proof. repeat split. Qed.

Example split1_sample :
  split1 "/" "a/b/c" = ["a"; "b/c"] /\ split1 "/" "abc" = ["abc"]
  /\ split1 "/" "/x" = [""; "x"].
Proof. repeat split. Qed.

Example isoformat_sample :
  Datetime.isoformat 739924 = "2026-11-04"
  /\ Datetime.isoformat 730179 = "2000-02-29"
  /\ Datetime.isoformat 1 = "0001-01-01"
  /\ Datetime.isoformat 3652059 = "9999-12-31".
Proof. repeat split; vm_compute; reflexivity. Qed.

Example date_token_sample :
  map (fun s => bool_decide (is_Some (search date_token_re s)))
      ["x12/25"; "on 12/25/2026 ok"; "jan 5"; "next week"; "12/255";
       "1/2/34567"; "abc 123"; "ab 12"]
  = [false; true; true; false; false; true; false; false].
Proof. vm_compute. reflexivity. Qed.

Example clock_groups_sample :
  match match_ clock_re "7:45pm" with
  | Some m => (m 1, m 2, m 3) = (Some "7", Some "45", Some "pm")
  | None => False
  end
  /\ match_ clock_re "745" = None /\ match_ clock_re "7:5" = None.
Proof. repeat split; vm_compute; reflexivity. Qed.

Example alas_groups_sample :
  match search alas_re "alas 3 sahapon" with
  | Some m => (m 1, m 2) = (Some "3", Some "hapon")
  | None => False
  end
  /\ search alas_re "alas 123 hapon" = None.
Proof. repeat split; vm_compute; reflexivity. Qed.

(** Taken alone, the [alas] rule would answer with an hour beyond 23. *)
Example alas_rule_alone_sample :
  alas_rule (Some "Alas 99 gabii") = Ok (Some "99:00")
  /\ parse_time sample_now (Some "Alas 99 gabii") = Ok (Some "18:00").
Proof. split; vm_compute; reflexivity. Qed.

Example parse_time_sample :
  parse_time sample_now (Some " 7:45 PM ") = Ok (Some "19:45")
  /\ parse_time sample_now (Some "karon") = Ok (Some "07:05")
  /\ parse_time sample_now (Some "") = Ok None
  /\ parse_time sample_now None = Ok None.
Proof. repeat split; vm_compute; reflexivity. Qed.

Example analyze_issue_sample :
  ActionAnalyzeIssue.run no_messages (turn "stress" "") {| responses := Missing |}
  = Ok ({| messages := [response "utter_support_stress_burnout"] |},
        [SlotSet "mood" "stress_burnout"])
  /\ ActionAnalyzeIssue.run no_messages (turn "stress" "") {| responses := Null |}
     = Raise TypeError.
Proof. split; vm_compute; reflexivity. Qed.

End Samples.

(* ===================================================================== *)
(** ** Further facts: trimming, lower-casing, removal of spaces *)
(* ===================================================================== *)

Module TrimFacts.
Import Text TextFacts.

Lemma lower_char_idem (c : ascii) : lower_char (lower_char c) = lower_char c.
Proof. destruct c as [[] [] [] [] [] [] [] []]; reflexivity. Qed.

Lemma lower_idem (s : string) : lower (lower s) = lower s.
Proof.
  induction s as [|c s IH]; simpl; [reflexivity|].
  now rewrite lower_char_idem, IH.
Qed.

Lemma lstrip_blank (r : string) : blank r = true -> lstrip r = "".
Proof.
  induction r as [|c r IH]; simpl; [reflexivity|].
  intros H. apply andb_true_iff in H as [Hc Hr]. rewrite Hc. auto.
Qed.

Lemma rstrip_app_blank (x r : string) : blank r = true -> rstrip (x +:+ r) = rstrip x.
Proof.
  intros Hr. induction x as [|c x IH]; simpl.
  - now apply rstrip_blank.
  - now rewrite IH.
Qed.

Lemma strip_app_blank (u r : string) : blank r = true -> strip (u +:+ r) = strip u.
Proof.
  intros Hr. unfold strip. induction u as [|c u IH]; simpl.
  - now rewrite (lstrip_blank r Hr).
  - destruct (isspace c); [exact IH|].
    exact (rstrip_app_blank (String c u) r Hr).
Qed.

(** Blank padding on either side does not survive trimming. *)
Lemma strip_pad (l u r : string) :
  blank l = true -> blank r = true -> strip (l +:+ u +:+ r) = strip u.
Proof.
  intros Hl Hr. unfold strip at 1. rewrite lstrip_blank_app by exact Hl.
  now apply strip_app_blank.
Qed.

Lemma rstrip_idem (s : string) : rstrip (rstrip s) = rstrip s.
Proof.
  induction s as [|c s IH]; simpl; [reflexivity|].
  destruct (rstrip s) as [|d t] eqn:E.
  - destruct (isspace c) eqn:Hc; simpl; [reflexivity | now rewrite Hc].
  - cbn [rstrip]. cbn [rstrip] in IH. now rewrite IH.
Qed.

Lemma lstrip_rstrip_solid (s : string) :
  starts_solid s = true -> lstrip (rstrip s) = rstrip s.
Proof.
  destruct s as [|c s]; simpl; [discriminate|].
  intros Hc. apply negb_true_iff in Hc.
  destruct (rstrip s); rewrite ?Hc; simpl; now rewrite Hc.
Qed.

Lemma lstrip_solid_or_empty (s : string) :
  lstrip s = "" \/ starts_solid (lstrip s) = true.
Proof.
  induction s as [|c s IH]; simpl; [now left|].
  destruct (isspace c) eqn:Hc; [exact IH|]. right. simpl. now rewrite Hc.
Qed.

Lemma strip_idem (s : string) : strip (strip s) = strip s.
Proof.
  unfold strip. destruct (lstrip_solid_or_empty s) as [E | H].
  - rewrite E. reflexivity.
  - rewrite (lstrip_rstrip_solid _ H). apply rstrip_idem.
Qed.

(** Trimming and lower-casing once is as good as twice. *)
Lemma lower_strip_idem (s : string) :
  lower (strip (lower (strip s))) = lower (strip s).
Proof. now rewrite !lower_strip, lower_idem, strip_idem. Qed.

Lemma contains_space_cons (c : ascii) (s : string) :
  contains " " (String c s) = Ascii.eqb " " c || contains " " s.
Proof. cbn [contains startswith]. now rewrite andb_true_r. Qed.

(** [t.replace(" ", "")] leaves no space behind. *)
Lemma replace_space_none (t : string) : contains " " (replace " " "" t) = false.
Proof.
  unfold replace. induction t as [|c t IH]; [reflexivity|].
  cbn [replace_from startswith String.length Nat.sub].
  rewrite andb_true_r.
  destruct (Ascii.eqb " " c) eqn:E.
  - exact IH.
  - rewrite contains_space_cons, E. exact IH.
Qed.

End TrimFacts.

(* ===================================================================== *)
(** ** Further facts: the time parser *)
(* ===================================================================== *)

Module TimeMore.
Import Text TextFacts TrimFacts Re ReFacts TimeFacts.

(** The third rule adds nothing: on every input the answer is the one
    of the clock rule, else the one of the word map. *)
Lemma parse_time_two_rules (now : Datetime.datetime) (value : option string) :
  exists c,
    clock_rule (normalize_time_text value) = Ok c
    /\ parse_time now value
       = Ok (match c with
             | Some t => Some t
             | None => dict_get (normalize_time_text value) (WORD_MAP now)
             end).
Proof.
  destruct (clock_rule_total (normalize_time_text value)) as (c & Ec & _).
  exists c. split; [exact Ec|]. unfold parse_time. rewrite Ec.
  cbn [mbind result_bind]. destruct c as [t|]; [reflexivity|].
  destruct (dict_get (normalize_time_text value) (WORD_MAP now)) as [t|] eqn:Ew;
    [reflexivity|].
  unfold alas_rule.
  destruct (search alas_re (lower (default "" value))) as [m2|] eqn:Em;
    [|reflexivity].
  apply alas_match_has_part in Em.
  destruct (part_of_day_is_word_map_key now value Em) as (t & Et & _). congruence.
Qed.

(** X1.  The normalized time text never contains a space. *)
Theorem normalize_time_text_no_space (value : option string) :
  contains " " (normalize_time_text value) = false.
Proof. unfold normalize_time_text. apply replace_space_none. Qed.




(** X3.  Blank padding and letter case never change the answer. *)
Theorem parse_time_ignores_case_and_padding (now : Datetime.datetime)
    (l u r : string) :
  blank l = true -> blank r = true ->
  parse_time now (Some (l +:+ u +:+ r)) = parse_time now (Some (lower u)).
Proof.
  intros Hl Hr.
  assert (E : normalize_time_text (Some (l +:+ u +:+ r))
              = normalize_time_text (Some (lower u))).
  { unfold normalize_time_text. simpl default.
    rewrite (strip_pad l u r Hl Hr).
    now rewrite (lower_strip (lower u)), lower_idem, <- lower_strip. }
  destruct (parse_time_two_rules now (Some (l +:+ u +:+ r))) as (c1 & E1 & ->).
  destruct (parse_time_two_rules now (Some (lower u))) as (c2 & E2 & ->).
  rewrite E in E1. assert (c1 = c2) by congruence. subst c2. now rewrite E.
Qed.

Lemma parse_time_ignores_case_and_padding_witness :
  parse_time sample_now (Some ("  " +:+ "7:45 PM" +:+ " ")) = Ok (Some "19:45").
Proof.
  rewrite (parse_time_ignores_case_and_padding sample_now "  " "7:45 PM" " ");
    reflexivity.
Defined.

Lemma parse_time_answer_well_formed (now : Datetime.datetime)
    (value : option string) (t : string) :
  Datetime.valid_time now ->
  parse_time now value = Ok (Some t) -> well_formed_hhmm t.
Proof.
  intros Hnow H.
  destruct (parse_time_two_rules now value) as (c & Ec & Ep).
  rewrite Ep in H. injection H as H.
  destruct (clock_rule_total (normalize_time_text value)) as (c' & Ec' & Wc).
  assert (c' = c) by congruence. subst c'.
  destruct c as [t'|]; [apply Wc; congruence|].
  exact (word_map_well_formed now _ _ Hnow H).
Qed.

(** X4.  Round trip: an answer of [parse_time], given back to it as
    text, is answered by itself. *)
Theorem parse_time_round_trip (now : Datetime.datetime) (value : option string)
    (t : string) :
  Datetime.valid_time now ->
  parse_time now value = Ok (Some t) ->
  parse_time now (Some t) = Ok (Some t).
Proof.
  intros Hnow H.
  destruct (parse_time_answer_well_formed now value t Hnow H) as (h & m & Hh & Hm & ->).
  pose proof (clock_case now h (two_digits h) (Some m) None) as C.
  unfold clock_text, minute_text, meridiem_text in C.
  rewrite (append_nil_r (":" +:+ two_digits m)) in C. rewrite C.
  - unfold clock_answer, hour24. simpl default.
    apply Nat.ltb_lt in Hh, Hm. now rewrite Hh, Hm.
  - apply in_seq. lia.
  - simpl. auto.
  - right. apply in_map, in_seq. lia.
Qed.

Lemma parse_time_round_trip_witness :
  parse_time sample_now (Some "19:45") = Ok (Some "19:45").
Proof.
  apply (parse_time_round_trip sample_now (Some " 7:45 PM ")).
  - unfold Datetime.valid_time. simpl. lia.
  - vm_compute. reflexivity.
Defined.

End TimeMore.

(* ===================================================================== *)
(** ** Further facts: the date parser and the yes/no normalizer *)
(* ===================================================================== *)

Module SlotMore.
Import Text TextFacts TrimFacts SlotFacts.

Lemma option_string_eqb_eq (a b : option string) :
  match a, b with
  | Some x, Some y => String.eqb x y
  | None, None => true
  | _, _ => false
  end = true -> a = b.
Proof.
  destruct a as [x|], b as [y|]; try discriminate; [|reflexivity].
  intros E. apply String.eqb_eq in E. now subst.
Qed.

(** Every two-number date token, checked one by one. *)
Lemma date_tokens_checked (now : Datetime.datetime) :
  forallb (fun a =>
    forallb (fun sa =>
      forallb (fun sep =>
        forallb (fun b =>
          forallb (fun sb =>
            match parse_date None now (Some (sa +:+ sep +:+ sb)) with
            | Some x => String.eqb x (sa +:+ sep +:+ sb)
            | None => false
            end)
            [decimal b; two_digits b])
          (seq 0 100))
        ["/"; "-"])
      [decimal a; two_digits a])
    (seq 0 100) = true.
Proof. vm_compute. reflexivity. Qed.

(** X5.  Without the fuzzy parser a token of two numbers of one or two
    digits joined by [/] or [-] is accepted as it stands: the answer is
    the text itself, not an ISO date, and the numbers are not checked
    against the calendar. *)
Theorem parse_date_token_as_is (now : Datetime.datetime) (a b : nat)
    (sa sep sb : string) :
  a < 100 -> b < 100 ->
  sa = decimal a \/ sa = two_digits a ->
  sb = decimal b \/ sb = two_digits b ->
  sep = "/" \/ sep = "-" ->
  parse_date None now (Some (sa +:+ sep +:+ sb)) = Some (sa +:+ sep +:+ sb).
Proof.
  intros Ha Hb Hsa Hsb Hsep.
  assert (Ia : In a (seq 0 100)) by (apply in_seq; lia).
  assert (Ib : In b (seq 0 100)) by (apply in_seq; lia).
  assert (Isa : In sa [decimal a; two_digits a])
    by (destruct Hsa as [-> | ->]; simpl; auto).
  assert (Isb : In sb [decimal b; two_digits b])
    by (destruct Hsb as [-> | ->]; simpl; auto).
  assert (Isep : In sep ["/"; "-"]) by (destruct Hsep as [-> | ->]; simpl; auto).
  pose proof (proj1 (forallb_forall _ _) (date_tokens_checked now) a Ia) as A1.
  pose proof (proj1 (forallb_forall _ _) A1 sa Isa) as A2.
  pose proof (proj1 (forallb_forall _ _) A2 sep Isep) as A3.
  pose proof (proj1 (forallb_forall _ _) A3 b Ib) as A4.
  pose proof (proj1 (forallb_forall _ _) A4 sb Isb) as A5.
  cbv beta in A5.
  destruct (parse_date None now (Some (sa +:+ sep +:+ sb))) as [x|];
    [|discriminate].
  apply String.eqb_eq in A5. now subst.
Qed.

Lemma parse_date_token_as_is_witness :
  parse_date None sample_now (Some "99/99") = Some "99/99"
  /\ parse_date None sample_now (Some "02-30") = Some "02-30".
Proof.
  split.
  - apply (parse_date_token_as_is sample_now 99 99 "99" "/" "99");
      try lia; now left.
  - apply (parse_date_token_as_is sample_now 2 30 "02" "-" "30");
      try lia; [now right | now left | now right].
Defined.

Lemma normalize_date_padded (l u r : string) :
  blank l = true -> blank r = true ->
  lower (strip (default "" (Some (l +:+ u +:+ r)))) = strip (lower u).
Proof.
  intros Hl Hr. simpl default. now rewrite (strip_pad l u r Hl Hr), lower_strip.
Qed.

(** X6.  The date words are recognised whatever their letter case and
    blank padding: "tomorrow", its three misspellings and "ugma" give
    the day after the current one, "today", "now" and "karon" the
    current day, "nextweek" the seventh day from now; the fuzzy parser
    is not consulted. *)
Theorem parse_date_words (dateparser : Dateparser) (now : Datetime.datetime)
    (l u r : string) :
  blank l = true -> blank r = true ->
  (In (lower u) ["tomorrow"; "tommorow"; "tomorow"; "tmrw"; "ugma"] ->
   parse_date dateparser now (Some (l +:+ u +:+ r))
   = Some (Datetime.isoformat (Datetime.ordinal now + 1)))
  /\ (In (lower u) ["today"; "now"; "karon"] ->
      parse_date dateparser now (Some (l +:+ u +:+ r))
      = Some (Datetime.isoformat (Datetime.ordinal now)))
  /\ (lower u = "nextweek" ->
      parse_date dateparser now (Some (l +:+ u +:+ r))
      = Some (Datetime.isoformat (Datetime.ordinal now + 7))).
Proof.
  intros Hl Hr.
  pose proof (normalize_date_padded l u r Hl Hr) as E.
  unfold parse_date, normalize_date_text. rewrite E.
  split; [|split].
  - intros H. cbn [In] in H.
    repeat (destruct H as [H|H]; [rewrite <- H; reflexivity|]). destruct H.
  - intros H. cbn [In] in H.
    repeat (destruct H as [H|H]; [rewrite <- H; reflexivity|]). destruct H.
  - intros H. rewrite H. reflexivity.
Qed.

Lemma parse_date_words_witness :
  parse_date None sample_now (Some ("  " +:+ "TMRW" +:+ " ")) = Some "2026-11-05"
  /\ parse_date None sample_now (Some ("" +:+ "Karon" +:+ "  ")) = Some "2026-11-04".
Proof.
  split.
  - rewrite (proj1 (parse_date_words None sample_now "  " "TMRW" " " eq_refl eq_refl)).
    + vm_compute. reflexivity.
    + simpl. auto.
  - rewrite (proj1 (proj2 (parse_date_words None sample_now "" "Karon" "  "
                             eq_refl eq_refl))).
    + vm_compute. reflexivity.
    + simpl. auto.
Defined.

(** X7.  The yes/no normalizer is idempotent. *)
Theorem normalize_yes_no_idempotent (value : option string) :
  normalize_yes_no (Some (normalize_yes_no value)) = normalize_yes_no value.
Proof.
  set (v := lower (strip (default "" value))).
  assert (H : normalize_yes_no value = "yes" \/ normalize_yes_no value = "no"
              \/ (normalize_yes_no value = v /\ in_set v AFFIRMATIVE = false
                  /\ in_set v NEGATIVE = false)).
  { unfold normalize_yes_no. fold v.
    destruct (in_set v AFFIRMATIVE); [now left|].
    destruct (in_set v NEGATIVE); [now right; left | now right; right]. }
  destruct H as [-> | [-> | (-> & Ea & En)]]; [reflexivity | reflexivity |].
  unfold normalize_yes_no. simpl default. unfold v in *.
  now rewrite lower_strip_idem, Ea, En.
Qed.

(** X8.  The answer is "yes" exactly for the affirmative phrases and
    "no" exactly for the negative ones (after trimming and
    lower-casing): no other reply is ever turned into a decision. *)
Theorem normalize_yes_no_decisions (value : option string) :
  (normalize_yes_no value = "yes"
   <-> In (lower (strip (default "" value))) AFFIRMATIVE)
  /\ (normalize_yes_no value = "no"
      <-> In (lower (strip (default "" value))) NEGATIVE).
Proof.
  unfold normalize_yes_no. rewrite <- !in_set_In.
  set (v := lower (strip (default "" value))).
  destruct (in_set v AFFIRMATIVE) eqn:Ea.
  - split; [tauto|]. split; [discriminate|].
    intros En. apply in_set_In in En.
    pose proof phrases_disjoint as D. rewrite forallb_forall in D.
    specialize (D _ En). rewrite Ea in D. discriminate.
  - destruct (in_set v NEGATIVE) eqn:En.
    + split; [split; discriminate | tauto].
    + split; split; try discriminate; intros ->; vm_compute in Ea, En; discriminate.
Qed.

End SlotMore.

(* ===================================================================== *)
(** ** Further facts: the handlers *)
(* ===================================================================== *)

Module HandlerFacts.
Import Text TextFacts TrimFacts Re ReFacts SelectorFacts MoodFacts.

(** X9.  A crisis phrase in any letter case, anywhere inside a longer
    message, triggers the safety reply whatever the intent and the
    store are. *)
Theorem crisis_phrase_anywhere (dispatcher : CollectingDispatcher)
    (intent pre u post : string) (domain : Domain) :
  In (lower u) CRISIS_KEYWORDS ->
  exists m,
    ActionSelectNumberedResponse.run dispatcher (turn intent (pre +:+ u +:+ post)) domain
    = Ok ({| messages := messages dispatcher ++ [m] |}, [])
    /\ (m = response "utter_crisis" \/ m = text crisis_text).
Proof.
  intros Hu.
  assert (Hs : crisis_signal (turn intent (pre +:+ u +:+ post))).
  { right. exists (lower u), (lower pre), (lower post). split; [exact Hu|].
    simpl. now rewrite !lower_app. }
  rewrite (run_crisis_path dispatcher _ domain Hs).
  eexists. split; [reflexivity|]. destruct (has_key _ _); auto.
Qed.

Lemma crisis_phrase_anywhere_witness :
  exists m,
    ActionSelectNumberedResponse.run no_messages
      (turn "greet" ("well, " +:+ "I Want To End It" +:+ " all")) empty_domain
    = Ok ({| messages := [m] |}, [])
    /\ (m = response "utter_crisis" \/ m = text crisis_text).
Proof.
  apply (crisis_phrase_anywhere no_messages "greet" "well, " "I Want To End It" " all").
  simpl. auto 10.
Defined.

Lemma select_reply_defined (domain : Domain) (key parent k : string) :
  select_reply domain key parent = response k -> defines domain k.
Proof.
  unfold select_reply.
  destruct (has_key key _) eqn:E1.
  - intros [= <-]. now apply has_key_defines.
  - destruct (has_key parent _) eqn:E2; [|discriminate].
    intros [= <-]. now apply has_key_defines.
Qed.

(** X10.  The selector never refers to a template the store does not
    define: its one message is a literal text or a defined template. *)
Theorem selector_templates_defined (dispatcher : CollectingDispatcher)
    (tracker : Tracker) (domain : Domain) :
  exists m,
    ActionSelectNumberedResponse.run dispatcher tracker domain
    = Ok ({| messages := messages dispatcher ++ [m] |}, [])
    /\ forall key, m = response key -> defines domain key.
Proof.
  destruct (crisis_signal_dec tracker) as [Hs|Hn].
  - eexists. split; [now apply run_crisis_path|].
    intros key. destruct (has_key _ _) eqn:E; [|discriminate].
    intros [= <-]. now apply has_key_defines.
  - destruct (contains "/" (latest_intent_name tracker)) eqn:Hc.
    + destruct (split1_two _ Hc) as (a & b & Hab).
      eexists. split; [now apply (run_lookup_path _ _ _ a b)|].
      intros key. apply select_reply_defined.
    + eexists. split; [now apply run_plain_path|].
      intros key. apply select_reply_defined.
Qed.

Lemma split1_join (s a b : string) :
  split1 "/" s = [a; b] -> s = a +:+ "/" +:+ b.
Proof.
  revert a. induction s as [|c s IH]; intros a H; cbn [split1] in H.
  - discriminate.
  - destruct (Ascii.eqb c "/") eqn:E.
    + apply Ascii.eqb_eq in E as ->. now injection H as <- <-.
    + destruct (split1 "/" s) as [|x [|y [|z rest]]] eqn:Es; try discriminate.
      injection H as <- <-. now rewrite (IH x eq_refl).
Qed.

(** X11.  The specific template is always looked up under "utter_"
    followed by the whole intent name, separators included: when the
    store defines that key and there is no crisis signal, it is the
    reply. *)
Theorem selector_specific_key (dispatcher : CollectingDispatcher)
    (tracker : Tracker) (domain : Domain) :
  ~ crisis_signal tracker ->
  defines domain ("utter_" +:+ latest_intent_name tracker) ->
  ActionSelectNumberedResponse.run dispatcher tracker domain
  = Ok ({| messages := messages dispatcher
             ++ [response ("utter_" +:+ latest_intent_name tracker)] |}, []).
Proof.
  intros Hn Hd. apply has_key_defines in Hd.
  destruct (contains "/" (latest_intent_name tracker)) eqn:Hc.
  - destruct (split1_two _ Hc) as (a & b & Hab).
    rewrite (run_lookup_path _ _ _ a b Hn Hc Hab).
    unfold select_reply. rewrite (split1_join _ _ _ Hab) in Hd |- *.
    now rewrite Hd.
  - rewrite (run_plain_path _ _ _ Hn Hc). unfold select_reply. now rewrite Hd.
Qed.

Lemma selector_specific_key_witness :
  ActionSelectNumberedResponse.run no_messages (turn "a/b/c" "hello")
    {| responses := Templates {[ "utter_a/b/c" := [] ]} |}
  = Ok ({| messages := [response "utter_a/b/c"] |}, []).
Proof.
  apply (selector_specific_key no_messages (turn "a/b/c" "hello")).
  - rewrite <- crisis_signal_decided. vm_compute. discriminate.
  - apply has_key_defines. vm_compute. reflexivity.
Defined.

Lemma canonical_mood_total (x : string) :
  exists y, _canonical_mood_from_intent x = Ok y.
Proof.
  unfold _canonical_mood_from_intent.
  destruct (startswith "express_" x); [eauto|].
  destruct (match_ variant_suffix_re x) as [m|] eqn:Em; [|simpl; eauto].
  apply variant_suffix_groups in Em as (base & rest & -> & _). simpl. eauto.
Qed.

(** X12.  A domain whose "responses" entry is null makes the issue
    analysis and the coping handler raise a TypeError on every turn,
    while the selector answers as it does with an empty store. *)
Theorem null_responses (dispatcher : CollectingDispatcher) (tracker : Tracker)
    (conv : Conversation) :
  ActionAnalyzeIssue.run dispatcher tracker null_domain = Raise TypeError
  /\ ActionGiveCoping.run dispatcher conv null_domain = Raise TypeError
  /\ ActionSelectNumberedResponse.run dispatcher tracker null_domain
     = ActionSelectNumberedResponse.run dispatcher tracker empty_domain.
Proof.
  split; [|split].
  - unfold ActionAnalyzeIssue.run.
    destruct (canonical_mood_total (latest_intent_name tracker)) as [y ->].
    reflexivity.
  - unfold ActionGiveCoping.run.
    assert (M : exists y,
              match get_slot conv "mood" with
              | None | Some EmptyString =>
                  _canonical_mood_from_intent (latest_intent_name (conv_tracker conv))
              | Some m => Ok m
              end = Ok y).
    { destruct (get_slot conv "mood") as [[|c m]|];
        eauto using canonical_mood_total. }
    destruct M as [y ->]. cbn [mbind result_bind].
    destruct (dict_get y MOOD_TO_COPING_UTTER) as [[|c k]|]; reflexivity.
  - reflexivity.
Qed.

(** X13.  For each of the twelve canonical moods as intent, the issue
    analysis sends the mood's support template without asking the
    store whether it exists, and proposes the mood as slot; only the
    following offer is conditional on the store. *)
Theorem analyze_issue_support_unchecked (dispatcher : CollectingDispatcher)
    (mood txt : string) (domain : Domain) :
  In mood canonical_moods ->
  responses domain <> Null ->
  exists rest,
    ActionAnalyzeIssue.run dispatcher (turn mood txt) domain
    = Ok ({| messages := messages dispatcher
               ++ response ("utter_support_" +:+ mood) :: rest |},
          [SlotSet "mood" mood])
    /\ (rest = [] \/ (rest = [response "utter_offer_coping"]
                      /\ defines domain "utter_offer_coping")).
Proof.
  intros Hm Hd. unfold canonical_moods in Hm.
  cbn [MOOD_TO_SUPPORT_UTTER map fst In] in Hm.
  assert (Shape : forall key,
            _canonical_mood_from_intent mood = Ok mood ->
            dict_get mood MOOD_TO_SUPPORT_UTTER = Some ("utter_support_" +:+ mood) ->
            "utter_support_" +:+ mood = String "u" key ->
            exists rest,
              ActionAnalyzeIssue.run dispatcher (turn mood txt) domain
              = Ok ({| messages := messages dispatcher
                         ++ response ("utter_support_" +:+ mood) :: rest |},
                    [SlotSet "mood" mood])
              /\ (rest = [] \/ (rest = [response "utter_offer_coping"]
                                /\ defines domain "utter_offer_coping"))).
  { intros key Ec Eg Ek. unfold ActionAnalyzeIssue.run.
    change (latest_intent_name (turn mood txt)) with mood.
    rewrite Ec. cbn [mbind result_bind]. rewrite Eg, Ek. rewrite <- Ek.
    destruct (responses domain) as [| |store] eqn:Er; [|congruence|].
    - exists []. split; [reflexivity | now left].
    - cbn [mbind result_bind].
      destruct (has_key "utter_offer_coping" store) eqn:Ho.
      + exists [response "utter_offer_coping"]. unfold utter_message. simpl.
        rewrite <- app_assoc. split; [reflexivity|]. right. split; [reflexivity|].
        apply has_key_defines. unfold responses_or_empty. now rewrite Er.
      + exists []. split; [reflexivity | now left]. }
  repeat (destruct Hm as [<- | Hm];
          [eapply Shape; [vm_compute; reflexivity | vm_compute; reflexivity
                          | reflexivity] |]).
  destruct Hm.
Qed.

Lemma analyze_issue_support_unchecked_witness :
  ~ defines empty_domain "utter_support_anger"
  /\ exists rest,
       ActionAnalyzeIssue.run no_messages (turn "anger" "") empty_domain
       = Ok ({| messages := response "utter_support_anger" :: rest |},
             [SlotSet "mood" "anger"]).
Proof.
  split.
  - rewrite <- has_key_defines. vm_compute. discriminate.
  - destruct (analyze_issue_support_unchecked no_messages "anger" "" empty_domain)
      as (rest & E & _).
    + unfold canonical_moods. simpl. auto 10.
    + discriminate.
    + exists rest. exact E.
Defined.

End HandlerFacts.

Module HandlerMore.
Import Text TextFacts TrimFacts Re ReFacts SelectorFacts MoodFacts HandlerFacts.

Lemma lang_of_tag (tag : string) :
  tag <> "" -> _lang {| lumichat := Lumichat (Some tag) |} = lower tag.
Proof. intros H. unfold _lang. simpl. now destruct tag. Qed.

(** X14.  The reflective reply is one literal text and no event.  Its
    language follows the tag of the message metadata without regard to
    letter case: a tag that lower-cases to "ceb" selects the Cebuano
    text of the intent's pair, any other tag the English one, and so do
    a missing tag, missing metadata and a "lumichat" entry that is not a
    dict. *)
Theorem reflective_language (dispatcher : CollectingDispatcher)
    (conv : Conversation) (domain : Domain) :
  let pair := ActionReflectiveSupport.branch (latest_intent_name (conv_tracker conv)) in
  let says body :=
    ActionReflectiveSupport.run dispatcher conv domain
    = Ok ({| messages := messages dispatcher ++ [text body] |}, []) in
  (forall tag, conv_metadata conv = Some {| lumichat := Lumichat (Some tag) |} ->
     lower tag = "ceb" -> says (snd pair))
  /\ (forall tag, conv_metadata conv = Some {| lumichat := Lumichat (Some tag) |} ->
        lower tag <> "ceb" -> says (fst pair))
  /\ (conv_metadata conv = None
      \/ conv_metadata conv = Some {| lumichat := NoLumichat |}
      \/ conv_metadata conv = Some {| lumichat := NotADict |}
      \/ conv_metadata conv = Some {| lumichat := Lumichat None |} ->
      says (fst pair)).
Proof.
  cbv zeta. unfold ActionReflectiveSupport.run, metadata_or_empty, _one, utter_message.
  destruct (ActionReflectiveSupport.branch _) as [en ceb]. cbn [fst snd].
  split; [|split].
  - intros tag -> E. simpl default.
    assert (T : tag <> "") by (intros ->; discriminate).
    now rewrite (lang_of_tag tag T), E.
  - intros tag -> E. simpl default.
    destruct (String.eqb_spec tag "") as [-> | T]; [reflexivity|].
    rewrite (lang_of_tag tag T).
    now destruct (String.eqb_spec (lower tag) "ceb").
  - intros [-> | [-> | [-> | ->]]]; reflexivity.
Qed.

Lemma reflective_language_witness :
  ActionReflectiveSupport.run no_messages (conversation "express_sadness" (Some "CEB") None)
    empty_domain
  = Ok ({| messages := [text (snd ActionReflectiveSupport.sadness)] |}, [])
  /\ ActionReflectiveSupport.run no_messages
       (conversation "express_sadness" (Some "fil") None) empty_domain
     = Ok ({| messages := [text (fst ActionReflectiveSupport.sadness)] |}, []).
Proof.
  split.
  - apply (proj1 (reflective_language no_messages
                    (conversation "express_sadness" (Some "CEB") None) empty_domain)
             "CEB"); reflexivity.
  - apply (proj1 (proj2 (reflective_language no_messages
                    (conversation "express_sadness" (Some "fil") None) empty_domain))
             "fil"); [reflexivity | discriminate].
Defined.

Lemma store_defines (domain : Domain) (store : gmap string (list Variant))
    (key : string) :
  responses domain = Templates store ->
  defines domain key <-> has_key key store = true.
Proof.
  intros Er. rewrite <- has_key_defines. unfold responses_or_empty.
  now rewrite Er.
Qed.

(** X15.  Whenever the coping handler returns, it has sent one reply
    and at most one follow-up and proposes no event; the follow-up is
    the referral offer when the store defines it, else the booking
    prompt when the store defines that; and every template it refers to
    is defined in the store. *)
Theorem give_coping_templates_defined (dispatcher dispatcher' : CollectingDispatcher)
    (conv : Conversation) (domain : Domain) (events : list EventType) :
  ActionGiveCoping.run dispatcher conv domain = Ok (dispatcher', events) ->
  events = []
  /\ exists first rest,
       messages dispatcher' = (messages dispatcher ++ first :: rest)%list
       /\ (rest = [] \/ rest = [response "utter_offer_referral"]
           \/ (rest = [response "utter_ask_book_counselor"]
               /\ ~ defines domain "utter_offer_referral"))
       /\ (defines domain "utter_offer_referral" ->
           rest = [response "utter_offer_referral"])
       /\ forall key, In (response key) (first :: rest) -> defines domain key.
Proof.
  unfold ActionGiveCoping.run, responses_value.
  destruct (match get_slot conv "mood" with
            | None | Some EmptyString => _ | Some m => Ok m end) as [mood|];
    [|discriminate].
  cbn [mbind result_bind].
  destruct (responses domain) as [| |store] eqn:Er.
  - (* no "responses" key: the generic text and nothing else *)
    destruct (dict_get mood MOOD_TO_COPING_UTTER) as [[|c k]|];
      cbn [mbind result_bind]; intros [= <- <-]; (split; [reflexivity|]);
      exists (text coping_text), []; (split; [reflexivity|]);
      (split; [now left|]); (split; [|intros key [H|[]]; discriminate]);
      intros (st & vs & E & _); congruence.
  - (* null: a membership test raises *)
    destruct (dict_get mood MOOD_TO_COPING_UTTER) as [[|c k]|];
      cbn [mbind result_bind in_responses]; discriminate.
  - pose proof (fun key => store_defines domain store key Er) as D.
    destruct (dict_get mood MOOD_TO_COPING_UTTER) as [[|c k]|];
      cbn [mbind result_bind in_responses default];
      try destruct (has_key (String c k) store) eqn:Hk;
      destruct (has_key "utter_offer_referral" store) eqn:Hr;
      cbn [mbind result_bind];
      try destruct (has_key "utter_ask_book_counselor" store) eqn:Hb;
      intros [= <- <-]; (split; [reflexivity|]);
      eexists _, _;
      (split; [cbn [utter_message messages]; rewrite <- ?app_assoc; reflexivity|]);
      (split;
       [ first [ left; reflexivity
               | right; left; reflexivity
               | right; right; split; [reflexivity | rewrite D; congruence] ]
       | split;
         [ first [ intros _; reflexivity | rewrite D; congruence ]
         | intros key H; cbn [In] in H;
           repeat (destruct H as [H|H]; [try discriminate; injection H as <-;
                                         apply D; assumption|]);
           destruct H ] ]).
Qed.

Lemma give_coping_templates_defined_witness :
  let d' := {| messages := [text coping_text; response "utter_ask_book_counselor"] |} in
  ActionGiveCoping.run no_messages (conversation "greet" None (Some "anxiety"))
    booking_domain = Ok (d', [])
  /\ forall key, In (response key) (messages d') -> defines booking_domain key.
Proof.
  intros d'.
  assert (E : ActionGiveCoping.run no_messages
                (conversation "greet" None (Some "anxiety")) booking_domain
              = Ok (d', [])) by (vm_compute; reflexivity).
  split; [exact E|].
  destruct (give_coping_templates_defined _ _ _ _ _ E)
    as (_ & first & rest & Hm & _ & _ & Hd).
  simpl in Hm. injection Hm as <- <-. exact Hd.
Defined.

End HandlerMore.

Module LinkAndMoodFacts.
Import Text TextFacts TrimFacts Re ReFacts SelectorFacts MoodFacts.

Lemma scheme_match_has_scheme (link : string) (m : groups) :
  match_ scheme_re link = Some m -> has_scheme link = true.
Proof.
  intros H. apply match_sound in H as (w & post & -> & R).
  unfold scheme_re, cat, Maybe in R. simpl in R. break_reads; reflexivity.
Qed.

Lemma has_scheme_matches (link : string) :
  has_scheme link = true -> exists m, match_ scheme_re link = Some m.
Proof.
  unfold has_scheme. intros H. apply orb_true_iff in H as [H|H];
    apply prefix_inv in H as [post ->];
    (destruct (match_ scheme_re _) eqn:E; [eauto | cbv in E; discriminate]).
Qed.

(** With a web scheme in front, a link is returned as it is. *)
Lemma appointment_link_kept (link : string) :
  has_scheme link = true -> _appointment_link (Some link) = link.
Proof.
  intros H. unfold _appointment_link.
  assert (E : or_else (Some link) default_appointment_url = link)
    by (destruct link; [discriminate | reflexivity]).
  rewrite E. now destruct (has_scheme_matches link H) as [m ->].
Qed.

(** X16.  The appointment link always begins with "http://" or
    "https://"; a configured link that already does is returned
    unchanged, so building the link from its own result changes
    nothing; an unset or empty variable gives the local default. *)
Theorem appointment_link_scheme (env : option string) :
  has_scheme (_appointment_link env) = true
  /\ _appointment_link (Some (_appointment_link env)) = _appointment_link env
  /\ (env = None \/ env = Some "" -> _appointment_link env = default_appointment_url).
Proof.
  assert (S : has_scheme (_appointment_link env) = true).
  { unfold _appointment_link.
    destruct (match_ scheme_re _) as [m|] eqn:E.
    - exact (scheme_match_has_scheme _ m E).
    - reflexivity. }
  split; [exact S|]. split; [now apply appointment_link_kept|].
  intros [-> | ->]; reflexivity.
Qed.

Lemma appointment_link_scheme_witness :
  _appointment_link (Some "//lumichat.example/appointment")
  = "https://lumichat.example/appointment"
  /\ _appointment_link None = default_appointment_url.
Proof.
  split; [reflexivity|].
  exact (proj2 (proj2 (appointment_link_scheme None)) (or_introl eq_refl)).
Defined.

Lemma alias_values_canonical (v : string) :
  In v (map snd aliases) ->
  In v canonical_moods
  /\ dict_get v MOOD_TO_SUPPORT_UTTER = Some ("utter_support_" +:+ v)
  /\ dict_get v MOOD_TO_COPING_UTTER = Some ("utter_coping_" +:+ v).
Proof.
  intros H. cbn [aliases map snd In] in H.
  repeat (destruct H as [<- | H];
          [split; [unfold canonical_moods; simpl; auto 20 | split; reflexivity]|]).
  destruct H.
Qed.

Lemma Ok_inj {A : Type} (a b : A) : Ok a = Ok b -> a = b.
Proof. intros H. now injection H. Qed.

(** X17.  For an intent that does not begin with "express_", the
    canonical mood is either one of the twelve canonical moods, which
    has its support and its coping template in the tables, or a prefix
    of the intent itself, passed through. *)
Theorem canonical_mood_range (x y : string) :
  startswith "express_" x = false ->
  _canonical_mood_from_intent x = Ok y ->
  (In y canonical_moods
   /\ dict_get y MOOD_TO_SUPPORT_UTTER = Some ("utter_support_" +:+ y)
   /\ dict_get y MOOD_TO_COPING_UTTER = Some ("utter_coping_" +:+ y))
  \/ startswith y x = true.
Proof.
  intros He. unfold _canonical_mood_from_intent. rewrite He.
  destruct (match_ variant_suffix_re x) as [m|] eqn:Em.
  - apply variant_suffix_groups in Em as (base & rest & -> & -> & _).
    cbn [group_str mbind result_bind]. intros E. apply Ok_inj in E. subst y.
    destruct (first_alias_cases base aliases) as [-> | Hin].
    + right. apply prefix_app.
    + left. now apply alias_values_canonical.
  - cbn [mbind result_bind]. intros E. apply Ok_inj in E. subst y.
    destruct (first_alias_cases x aliases) as [-> | Hin].
    + right. rewrite <- (append_nil_r x) at 2. apply prefix_app.
    + left. now apply alias_values_canonical.
Qed.

Lemma canonical_mood_range_witness :
  In "sleep_insomnia" canonical_moods
  \/ startswith "sleep_insomnia" "insomnia_p0002" = true.
Proof.
  destruct (canonical_mood_range "insomnia_p0002" "sleep_insomnia" eq_refl eq_refl)
    as [(H & _) | H]; [now left | now right].
Defined.

(** X18.  An intent that begins with a key of the alias table is given
    that key's mood whatever follows the key (a numbered variant such
    as "_p0007" included), provided no backslash follows. *)
Theorem alias_prefix_decides (k v rest : string) :
  In (k, v) aliases ->
  contains (String backslash "") rest = false ->
  _canonical_mood_from_intent (k +:+ rest) = Ok v.
Proof.
  intros H Hb. cbn [aliases In] in H.
  repeat (destruct H as [[= <- <-] | H];
          [rewrite suffix_kept_without_backslash;
           [reflexivity | cbn; exact Hb | reflexivity]|]).
  destruct H.
Qed.

Lemma alias_prefix_decides_witness :
  _canonical_mood_from_intent ("stress" +:+ "_p0007") = Ok "stress_burnout".
Proof.
  apply (alias_prefix_decides "stress" "stress_burnout" "_p0007").
  - simpl. auto.
  - reflexivity.
Defined.

End LinkAndMoodFacts.

(* ===================================================================== *)
(** ** The mood canonicalizer: where a second pass changes nothing *)
(* ===================================================================== *)

Module MoodExact.
Import Text TextFacts Re ReFacts MoodFacts LinkAndMoodFacts.

Lemma replace_from_shrinks (old s : string) :
  forall n, String.length (replace_from old "" n s) <= String.length s.
Proof.
  induction s as [|c s IH]; intros n; cbn [replace_from String.length]; [lia|].
  destruct n as [|n].
  - destruct (startswith old (String c s)).
    + change ("" +:+ ?x) with x. specialize (IH (String.length old - 1)). lia.
    + cbn [String.length]. specialize (IH 0). lia.
  - specialize (IH n). lia.
Qed.

Lemma express_removed_shorter (y : string) :
  startswith "express_" y = true ->
  String.length (replace "express_" "" y) < String.length y.
Proof.
  intros H. destruct y as [|c s]; [discriminate|].
  unfold replace. cbn [replace_from]. rewrite H.
  change ("" +:+ ?x) with x. cbn [String.length].
  pose proof (replace_from_shrinks "express_" s (8 - 1)). lia.
Qed.

Lemma express_rename_cases (k : string) :
  express_rename k = k
  \/ In (express_rename k)
        ["depression"; "stress_burnout"; "sleep_insomnia"; "relationship_romance";
         "self_esteem_body"].
Proof.
  unfold express_rename.
  destruct (String.eqb_spec k "sadness") as [-> | _]; [right; simpl; auto|].
  destruct (String.eqb_spec k "stress") as [-> | _]; [right; simpl; auto|].
  destruct (String.eqb_spec k "sleep") as [-> | _]; [right; simpl; auto|].
  destruct (String.eqb_spec k "relationship") as [-> | _]; [right; simpl; auto 6|].
  destruct (String.eqb_spec k "low_self_esteem") as [-> | _]; [right; simpl; auto 6|].
  now left.
Qed.

Lemma canonical_express (x : string) :
  startswith "express_" x = true ->
  _canonical_mood_from_intent x = Ok (express_rename (replace "express_" "" x)).
Proof. intros H. unfold _canonical_mood_from_intent. now rewrite H. Qed.

(** An intent that begins with "express_" is never its own mood. *)
Lemma express_not_settled (y : string) :
  startswith "express_" y = true -> _canonical_mood_from_intent y <> Ok y.
Proof.
  intros H E. rewrite (canonical_express y H) in E. apply Ok_inj in E.
  destruct (express_rename_cases (replace "express_" "" y)) as [R | R].
  - pose proof (express_removed_shorter y H) as L.
    rewrite R in E. rewrite E in L. lia.
  - rewrite E in R. cbn [In] in R.
    repeat (destruct R as [R | R]; [rewrite <- R in H; discriminate|]).
    destruct R.
Qed.

Lemma alias_values_unmatched (v : string) :
  In v (map snd aliases) -> match_ variant_suffix_re v = None.
Proof.
  intros H. cbn [aliases map snd In] in H.
  repeat (destruct H as [<- | H]; [vm_compute; reflexivity|]).
  destruct H.
Qed.

(** The moods the canonicalizer returns unchanged are exactly the
    settled ones. *)
Lemma fixed_iff_settled (y : string) :
  _canonical_mood_from_intent y = Ok y <-> settled y.
Proof.
  unfold settled. split.
  - intros E. destruct (startswith "express_" y) eqn:He.
    { now destruct (express_not_settled y He). }
    split; [reflexivity|].
    destruct (match_ variant_suffix_re y) as [m|] eqn:Em.
    + exfalso. pose proof Em as Em'.
      apply variant_suffix_groups in Em' as (base & rest & G & Ey & _).
      unfold _canonical_mood_from_intent in E. rewrite He, Em, G in E.
      cbn [group_str mbind result_bind] in E. apply Ok_inj in E.
      destruct (first_alias_cases base aliases) as [F | F].
      * rewrite F in E. rewrite <- E in Ey.
        apply (f_equal String.length) in Ey. rewrite append_length in Ey.
        cbn [String.length String.append] in Ey. lia.
      * rewrite E in F. apply alias_values_unmatched in F. congruence.
    + split; [reflexivity|].
      rewrite (canonical_plain y He Em) in E. now apply Ok_inj in E.
  - intros (He & Em & F). rewrite (canonical_plain y He Em). now rewrite F.
Qed.

Lemma first_alias_unchanged (k : string) (d : list (string * string)) :
  forallb (fun '(a, _) => negb (startswith a k)) d = true -> first_alias k d = k.
Proof.
  induction d as [|[a v] d IH]; cbn [forallb first_alias]; [reflexivity|].
  intros H. apply andb_true_iff in H as [Ha Hd].
  apply negb_true_iff in Ha. rewrite Ha. auto.
Qed.

Lemma replace_from_absent (old new s : string) :
  contains old s = false -> replace_from old new 0 s = s.
Proof.
  induction s as [|c s IH]; [reflexivity|].
  cbn [contains replace_from]. intros H.
  apply orb_false_iff in H as [Hp Hc]. rewrite Hp. now rewrite (IH Hc).
Qed.

Lemma express_remainder (k : string) :
  contains "express_" k = false -> replace "express_" "" ("express_" +:+ k) = k.
Proof.
  intros H. unfold replace.
  change ("express_" +:+ k)
    with (String "e" (String "x" (String "p" (String "r" (String "e"
            (String "s" (String "s" (String "_" k)))))))).
  cbn [replace_from].
  replace (startswith "express_" _) with true by reflexivity.
  cbn [String.length Nat.sub replace_from].
  change ("" +:+ ?x) with x. now apply replace_from_absent.
Qed.

Lemma no_express_inside (k : string) :
  contains "express_" k = false -> startswith "express_" k = false.
Proof.
  intros H. destruct (startswith "express_" k) eqn:E; [|reflexivity].
  now rewrite (contains_prefix _ _ E) in H.
Qed.

Lemma plain_remainder_settled (k : string) :
  contains "express_" k = false ->
  contains (String backslash "") k = false ->
  no_alias_prefix k = true ->
  settled k.
Proof.
  intros He Hb Ha. pose proof (no_express_inside k He) as Hs.
  split; [exact Hs|]. split.
  - destruct (match_ variant_suffix_re k) as [m|] eqn:Em; [|reflexivity].
    apply variant_suffix_groups in Em as (base & rest & _ & -> & _).
    rewrite (contains_at (String backslash "") (base +:+ "_p") rest) in Hb;
      [discriminate|]. now rewrite !append_assoc.
  - now apply first_alias_unchanged.
Qed.

Lemma renamed_settled (v : string) :
  In v ["depression"; "stress_burnout"; "sleep_insomnia"; "relationship_romance";
        "self_esteem_body"] -> settled v.
Proof.
  intros H. apply fixed_iff_settled. cbn [In] in H.
  repeat (destruct H as [<- | H]; [vm_compute; reflexivity|]). destruct H.
Qed.

(** C4, as amended.  The canonicalizer is total, and applying it twice
    gives the same as applying it once exactly when the mood of the
    first pass is settled: it does not begin with "express_", the suffix
    pattern does not match it, and the alias table gives it back.  That
    is so for every intent that does not begin with "express_"; for
    every intent "express_" + k whose remainder k has no "express_" and
    no backslash inside and no alias key in front (such as
    "express_anxiety" and "express_happiness"); and for the five renamed
    intents.  Each of the twelve canonical mood names is returned
    unchanged. *)
Theorem canonical_mood_idempotence :
  (forall x, exists y, _canonical_mood_from_intent x = Ok y)
  /\ (forall x y, _canonical_mood_from_intent x = Ok y ->
        (_canonical_mood_from_intent x ≫= _canonical_mood_from_intent)
        = _canonical_mood_from_intent x
        <-> settled y)
  /\ (forall x, startswith "express_" x = false ->
        exists y, _canonical_mood_from_intent x = Ok y
                  /\ _canonical_mood_from_intent y = Ok y)
  /\ (forall k, contains "express_" k = false ->
        contains (String backslash "") k = false ->
        no_alias_prefix k = true ->
        exists y, _canonical_mood_from_intent ("express_" +:+ k) = Ok y
                  /\ _canonical_mood_from_intent y = Ok y)
  /\ Forall (fun m => _canonical_mood_from_intent m = Ok m) canonical_moods
  /\ Forall (fun '(i, m) => _canonical_mood_from_intent i = Ok m
                            /\ _canonical_mood_from_intent m = Ok m)
            express_renamings.
Proof.
  assert (Off : forall x, startswith "express_" x = false ->
                  exists y, _canonical_mood_from_intent x = Ok y
                            /\ _canonical_mood_from_intent y = Ok y).
  { intros x He. unfold _canonical_mood_from_intent at 1. rewrite He.
    destruct (match_ variant_suffix_re x) as [m|] eqn:Em.
    - apply variant_suffix_groups in Em as (base & rest & -> & -> & Hb).
      cbn [group_str mbind result_bind].
      exists (first_alias base aliases). split; [reflexivity|].
      apply canonical_after_alias, canonical_plain.
      + destruct (startswith "express_" base) eqn:Hp; [|reflexivity].
        now rewrite (prefix_trans _ _ _ Hp) in He.
      + now apply variant_suffix_needs_backslash.
    - cbn [mbind result_bind].
      exists (first_alias x aliases). split; [reflexivity|].
      apply canonical_after_alias, canonical_plain; assumption. }
  split; [|split; [|split; [exact Off|split; [|split]]]].
  - intros x. destruct (startswith "express_" x) eqn:He.
    + rewrite (canonical_express x He). eauto.
    + destruct (Off x He) as (y & Hy & _). eauto.
  - intros x y E. rewrite E. cbn [mbind result_bind]. apply fixed_iff_settled.
  - intros k He Hb Ha.
    assert (Hx : startswith "express_" ("express_" +:+ k) = true) by apply prefix_app.
    rewrite (canonical_express _ Hx), (express_remainder k He).
    eexists. split; [reflexivity|]. apply fixed_iff_settled.
    destruct (express_rename_cases k) as [-> | R].
    + now apply plain_remainder_settled.
    + now apply renamed_settled.
  - unfold canonical_moods. cbn [MOOD_TO_SUPPORT_UTTER map fst].
    repeat constructor; vm_compute; reflexivity.
  - unfold express_renamings. repeat constructor; vm_compute; reflexivity.
Qed.

Lemma canonical_mood_idempotence_witness :
  (exists y, _canonical_mood_from_intent ("burnout_p" +:+ String backslash "dd") = Ok y
             /\ _canonical_mood_from_intent y = Ok y)
  /\ (exists y, _canonical_mood_from_intent ("express_" +:+ "anxiety") = Ok y
                /\ _canonical_mood_from_intent y = Ok y)
  /\ (exists y, _canonical_mood_from_intent ("express_" +:+ "happiness") = Ok y
                /\ _canonical_mood_from_intent y = Ok y)
  /\ ~ settled "grief".
Proof.
  destruct canonical_mood_idempotence as (_ & Exact & Off & Express & _).
  split; [|split; [|split]].
  - apply Off. reflexivity.
  - apply Express; reflexivity.
  - apply Express; reflexivity.
  - intros S.
    apply (Exact "express_grief" "grief" eq_refl) in S. vm_compute in S. discriminate.
Defined.

End MoodExact.
